(** * Personal library manager: the record store of [main.py]

    A shallow embedding of the store functions of [main.py]
    ([load_library], [save_library], [add_book], [remove_book],
    [search_books], [calculate_statistics], [get_random_book]) and of the
    parts of Python's [json], [str], [list] and [random] they call.

    Conventions of the model.
    - A Python [str] is a [string]: a sequence of characters whose code
      points are below 256.  The strings that [json.load] builds can hold
      any code point (through a [\uXXXX] escape), so the values it returns
      carry their strings as lists of code points ([list N]).
    - A book is the dict that [add_book] builds, as a record of its five
      values.
    - The one list object that the script binds to [library] and hands to
      every function lives in the state ([mem]), next to the storage file
      ([disk]); a function that mutates its argument in place changes
      [mem], and the functions of the model take no [library] argument
      where the source passes that reference.
    - [json.dump] is the encoder of Python for a list of such dicts with
      [indent=4]; [json.loads] is the scanner of Python for every JSON
      text, run on a fuel that is proved to suffice ([Codec.loads_fed],
      [Codec.scan_stable]).  The limit of Python on the depth of nesting
      is outside the model, and a float is kept as its literal.
    - The quotient of [calculate_statistics] is exact (a rational), the
      rounding of Python's float is outside the model.
    - The model covers the runs in which the operating system accepts the
      write of [save_library].
    - The script itself is [page]: one run loads the library and takes
      the branch of the menu; what it shows is kept by the call and the
      values that go into the text ([shown]).  [page] covers the runs in
      which the loaded value is the value of a library of the model
      ([own_library], [own_library_inv]). *)

From Stdlib Require Import List String Ascii Bool Arith ZArith NArith QArith Lia.
From Stdlib Require Import DecimalString DecimalZ DecimalPos DecimalN DecimalFacts.
Import ListNotations.

Local Close Scope Q_scope.
Local Open Scope nat_scope.
Local Open Scope list_scope.
Local Open Scope string_scope.

(** ** Python strings *)

Module PyStr.

(** [str.lower()] on one character below 256: the capital letters A-Z and
    the capital letters of the Latin-1 block (U+00C0-U+00DE, without the
    multiplication sign U+00D7) move 32 places up. *)
Definition lower_char (c : ascii) : ascii :=
  let n := nat_of_ascii c in
  if (((65 <=? n) && (n <=? 90))
      || ((192 <=? n) && (n <=? 222) && negb (n =? 215)))%nat
  then ascii_of_nat (n + 32)
  else c.

Fixpoint lower (s : string) : string :=
  match s with
  | EmptyString => EmptyString
  | String c s' => String (lower_char c) (lower s')
  end.

(** [needle in hay] on strings: [needle] starts at some position of
    [hay]. *)
Fixpoint contains (needle hay : string) : bool :=
  String.prefix needle hay
  || match hay with
     | EmptyString => false
     | String _ hay' => contains needle hay'
     end.

(** Code points of a string. *)
Fixpoint codes (s : string) : list N :=
  match s with
  | EmptyString => []
  | String c s' => N_of_ascii c :: codes s'
  end.

End PyStr.

Import PyStr.

(** ** Books and libraries *)

(** The dict built by [add_book]: keys title, author, year, genre, read. *)
Record book := Book {
  title : string;
  author : string;
  year : Z;
  genre : string;
  read : bool
}.

(** [==] on two such dicts: equal values under every key. *)
Definition book_eqb (a b : book) : bool :=
  String.eqb (title a) (title b)
  && String.eqb (author a) (author b)
  && Z.eqb (year a) (year b)
  && String.eqb (genre a) (genre b)
  && Bool.eqb (read a) (read b).

(** ** JSON values and [json.dump] *)

(** What [json.load] returns.  A float is kept as the literal that denotes
    it; a dict is the list of its items in insertion order, keys
    distinct. *)
#[warnings="-register-all"]
Inductive json :=
| JNull
| JBool (b : bool)
| JInt (z : Z)
| JFloat (literal : string)
| JStr (s : list N)
| JList (items : list json)
| JDict (items : list (list N * json)).

Module Json.

Definition nl : string := String (ascii_of_nat 10) EmptyString.

Fixpoint spaces (n : nat) : string :=
  match n with
  | 0 => EmptyString
  | S n' => String " " (spaces n')
  end.

(** [indent=4]: a line break and four blanks per nesting level. *)
Definition newline_indent (level : nat) : string := nl ++ spaces (4 * level).

Definition hex_digit (n : nat) : ascii :=
  if (n <? 10)%nat then ascii_of_nat (48 + n) else ascii_of_nat (87 + n).

(** [ensure_ascii=True]: quote and backslash are escaped, the five control
    characters with a short form take it, every other character outside
    blank..tilde becomes [\u00xx] (lower-case hex). *)
Definition escape_char (c : ascii) : string :=
  let n := nat_of_ascii c in
  if (n =? 34)%nat then "\" ++ String c EmptyString
  else if (n =? 92)%nat then "\\"
  else if (n =? 10)%nat then "\n"
  else if (n =? 13)%nat then "\r"
  else if (n =? 9)%nat then "\t"
  else if (n =? 8)%nat then "\b"
  else if (n =? 12)%nat then "\f"
  else if ((32 <=? n) && (n <=? 126))%nat then String c EmptyString
  else "\u00" ++ String (hex_digit (n / 16)) (String (hex_digit (n mod 16)) EmptyString).

Fixpoint escape (s : string) : string :=
  match s with
  | EmptyString => EmptyString
  | String c s' => escape_char c ++ escape s'
  end.

Definition quote : string := String (ascii_of_nat 34) EmptyString.

Definition encode_str (s : string) : string := quote ++ escape s ++ quote.

Definition encode_int (z : Z) : string := NilZero.string_of_int (Z.to_int z).

Definition encode_bool (b : bool) : string := if b then "true" else "false".

(** The chunks of a non-empty container, joined by the item separator
    [","] and the line break of the level. *)
Fixpoint join (sep : string) (chunks : list string) : string :=
  match chunks with
  | [] => EmptyString
  | [c] => c
  | c :: rest => c ++ sep ++ join sep rest
  end.

(** [_iterencode_list] at nesting level [level], the items already
    encoded. *)
Definition encode_list (level : nat) (items : list string) : string :=
  match items with
  | [] => "[]"
  | _ => "[" ++ newline_indent (S level)
         ++ join ("," ++ newline_indent (S level)) items
         ++ newline_indent level ++ "]"
  end.

(** [_iterencode_dict] at nesting level [level]: each key, the key
    separator [": "] and the encoded value. *)
Definition encode_dict (level : nat) (items : list (string * string)) : string :=
  match items with
  | [] => "{}"
  | _ => "{" ++ newline_indent (S level)
         ++ join ("," ++ newline_indent (S level))
              (map (fun kv => encode_str (fst kv) ++ ": " ++ snd kv) items)
         ++ newline_indent level ++ "}"
  end.

Definition encode_book (level : nat) (b : book) : string :=
  encode_dict level
    [ ("title", encode_str (title b));
      ("author", encode_str (author b));
      ("year", encode_int (year b));
      ("genre", encode_str (genre b));
      ("read", encode_bool (read b)) ].

(** [json.dumps(library, indent=4)] for a list of books. *)
Definition dumps (library : list book) : string :=
  encode_list 0 (map (encode_book 1) library).

(** The Python value of a book and of a library. *)
Definition of_book (b : book) : json :=
  JDict [ (codes "title", JStr (codes (title b)));
          (codes "author", JStr (codes (author b)));
          (codes "year", JInt (year b));
          (codes "genre", JStr (codes (genre b)));
          (codes "read", JBool (read b)) ].

Definition of_library (library : list book) : json :=
  JList (map of_book library).

(** *** [json.loads] *)

(** The outcome of a scanner: a value and the text after it, a
    [JSONDecodeError], or the end of the fuel of the model. *)
Inductive scan (A : Type) :=
| Parsed (a : A) (rest : string)
| Invalid
| Starved.
Arguments Parsed {A} a rest.
Arguments Invalid {A}.
Arguments Starved {A}.

Definition is_ws (c : ascii) : bool :=
  ((c =? " ") || (c =? "009") || (c =? "010") || (c =? "013"))%char.

(** [WHITESPACE.match(s, idx).end()] *)
Fixpoint skip_ws (s : string) : string :=
  match s with
  | EmptyString => EmptyString
  | String c s' => if is_ws c then skip_ws s' else s
  end.

(** [s[idx:idx + len(p)] == p], and the text after it. *)
Fixpoint strip (p s : string) : option string :=
  match p, s with
  | EmptyString, _ => Some s
  | String a p', String b s' => if (a =? b)%char then strip p' s' else None
  | String _ _, EmptyString => None
  end.

Definition hex_value (c : ascii) : option N :=
  let n := nat_of_ascii c in
  if ((48 <=? n) && (n <=? 57))%nat then Some (N.of_nat (n - 48))
  else if ((97 <=? n) && (n <=? 102))%nat then Some (N.of_nat (n - 87))
  else if ((65 <=? n) && (n <=? 70))%nat then Some (N.of_nat (n - 55))
  else None.

(** The four hex digits of a [\uXXXX] escape. *)
Definition hex4 (a b c d : ascii) : option N :=
  match hex_value a, hex_value b, hex_value c, hex_value d with
  | Some x, Some y, Some z, Some w => Some (((x * 16 + y) * 16 + z) * 16 + w)%N
  | _, _, _, _ => None
  end.

Definition is_high_surrogate (n : N) : bool := ((55296 <=? n) && (n <=? 56319))%N.
Definition is_low_surrogate (n : N) : bool := ((56320 <=? n) && (n <=? 57343))%N.
Definition join_surrogates (hi lo : N) : N :=
  (65536 + ((hi - 55296) * 1024 + (lo - 56320)))%N.

(** The character a one-letter escape stands for. *)
Definition backslash (c : ascii) : option N :=
  if (c =? "034")%char then Some 34%N
  else if (c =? "\")%char then Some 92%N
  else if (c =? "/")%char then Some 47%N
  else if (c =? "b")%char then Some 8%N
  else if (c =? "f")%char then Some 12%N
  else if (c =? "n")%char then Some 10%N
  else if (c =? "r")%char then Some 13%N
  else if (c =? "t")%char then Some 9%N
  else None.

(** One more character in front of the characters that follow it. *)
Definition more (c : N) (r : scan (list N)) : scan (list N) :=
  match r with
  | Parsed cs rest => Parsed (c :: cs) rest
  | other => other
  end.

(** [scanstring(s, end, strict=True)], from the character after the
    opening quote: the characters of the literal and the text after the
    closing quote. *)
Fixpoint scanstring (s : string) : scan (list N) :=
  match s with
  | EmptyString => Invalid
  | String c s' =>
      if (c =? "034")%char then Parsed [] s'
      else if (c =? "\")%char then
        match s' with
        | EmptyString => Invalid
        | String e s'' =>
            if (e =? "u")%char then
              match s'' with
              | String h1 (String h2 (String h3 (String h4 r))) =>
                  match hex4 h1 h2 h3 h4 with
                  | None => Invalid
                  | Some uni =>
                      if is_high_surrogate uni then
                        match r with
                        | String e2 (String u2 (String l1 (String l2
                            (String l3 (String l4 r2))))) =>
                            match
                              (if ((e2 =? "\") && (u2 =? "u"))%char
                               then hex4 l1 l2 l3 l4 else None)
                            with
                            | Some lo =>
                                if is_low_surrogate lo
                                then more (join_surrogates uni lo) (scanstring r2)
                                else more uni (scanstring r)
                            | None => more uni (scanstring r)
                            end
                        | _ => more uni (scanstring r)
                        end
                      else more uni (scanstring r)
                  end
              | _ => Invalid
              end
            else
              match backslash e with
              | Some k => more k (scanstring s'')
              | None => Invalid
              end
        end
      else if (nat_of_ascii c <? 32)%nat then Invalid
      else more (N_of_ascii c) (scanstring s')
  end.

(** The longest run of decimal digits at the head of the text. *)
Fixpoint digits (s : string) : Decimal.uint * string :=
  match s with
  | EmptyString => (Decimal.Nil, EmptyString)
  | String c s' =>
      let (d, rest) := digits s' in
      match uint_of_char c (Some d) with
      | Some d' => (d', rest)
      | None => (Decimal.Nil, s)
      end
  end.

(** The integer part of [NUMBER_RE]: an optional minus sign, then a single
    0 or a digit from 1 to 9 and the digits after it. *)
Definition scan_integer (s : string) : option (bool * Decimal.uint * string) :=
  let (neg, s1) :=
    match s with
    | String c s' => if (c =? "-")%char then (true, s') else (false, s)
    | EmptyString => (false, s)
    end in
  match s1 with
  | EmptyString => None
  | String c s2 =>
      if (c =? "0")%char then Some (neg, Decimal.D0 Decimal.Nil, s2)
      else
        match digits s1 with
        | (Decimal.Nil, _) => None
        | (d, rest) => Some (neg, d, rest)
        end
  end.

(** The fraction of [NUMBER_RE]: a point and at least one digit. *)
Definition scan_frac (s : string) : option (string * string) :=
  match s with
  | String c s' =>
      if (c =? ".")%char then
        match digits s' with
        | (Decimal.Nil, _) => None
        | (d, rest) => Some ("." ++ NilEmpty.string_of_uint d, rest)
        end
      else None
  | EmptyString => None
  end.

(** The exponent of [NUMBER_RE]: e or E, an optional sign and at least one
    digit. *)
Definition scan_exp (s : string) : option (string * string) :=
  match s with
  | String c s' =>
      if ((c =? "e") || (c =? "E"))%char then
        let (sign, s'') :=
          match s' with
          | String g r =>
              if ((g =? "-") || (g =? "+"))%char
              then (String g EmptyString, r) else (EmptyString, s')
          | EmptyString => (EmptyString, s')
          end in
        match digits s'' with
        | (Decimal.Nil, _) => None
        | (d, rest) =>
            Some (String c EmptyString ++ sign ++ NilEmpty.string_of_uint d, rest)
        end
      else None
  | EmptyString => None
  end.

(** [match_number] and the conversion of the match: an [int] when there is
    neither fraction nor exponent, a [float] otherwise. *)
Definition scan_number (s : string) : option (json * string) :=
  match scan_integer s with
  | None => None
  | Some (neg, d, r1) =>
      let (frac, r2) :=
        match scan_frac r1 with
        | Some (f, r) => (f, r)
        | None => (EmptyString, r1)
        end in
      let (exp, r3) :=
        match scan_exp r2 with
        | Some (e, r) => (e, r)
        | None => (EmptyString, r2)
        end in
      match frac, exp with
      | EmptyString, EmptyString =>
          Some (JInt (if neg then - Z.of_uint d else Z.of_uint d), r3)
      | _, _ =>
          Some (JFloat ((if neg then "-" else "")
                        ++ NilEmpty.string_of_uint d ++ frac ++ exp), r3)
      end
  end.

(** [==] on two [str]. *)
Fixpoint str_eqb (a b : list N) : bool :=
  match a, b with
  | [], [] => true
  | x :: a', y :: b' => (x =? y)%N && str_eqb a' b'
  | _, _ => false
  end%list.

(** [d[key] = value] on a dict: the value of a key that is there is
    replaced in place, a new key goes to the end. *)
Fixpoint dict_set (key : list N) (value : json) (d : list (list N * json))
  : list (list N * json) :=
  match d with
  | [] => [(key, value)]
  | (k, v) :: d' =>
      if str_eqb k key then (k, value) :: d'
      else (k, v) :: dict_set key value d'
  end%list.

(** [d.get(key)] *)
Fixpoint dict_get (key : list N) (d : list (list N * json)) : option json :=
  match d with
  | [] => None
  | (k, v) :: d' => if str_eqb k key then Some v else dict_get key d'
  end%list.

(** The constants and numbers of [scan_once], in its order. *)
Definition scan_atom (s : string) : scan json :=
  match strip "null" s, strip "true" s, strip "false" s with
  | Some r, _, _ => Parsed JNull r
  | None, Some r, _ => Parsed (JBool true) r
  | None, None, Some r => Parsed (JBool false) r
  | None, None, None =>
      match scan_number s with
      | Some (v, r) => Parsed v r
      | None =>
          match strip "NaN" s, strip "Infinity" s, strip "-Infinity" s with
          | Some r, _, _ => Parsed (JFloat "NaN") r
          | None, Some r, _ => Parsed (JFloat "Infinity") r
          | None, None, Some r => Parsed (JFloat "-Infinity") r
          | None, None, None => Invalid
          end
      end
  end.

(** [scan_once], [JSONArray] and [JSONObject].  [scan_elements] starts at
    the first character of an element, [scan_members] at the first
    character of a key; every call spends one unit of fuel. *)
Fixpoint scan_once (fuel : nat) (s : string) {struct fuel} : scan json :=
  match fuel with
  | 0 => Starved
  | S fuel' =>
      match s with
      | EmptyString => Invalid
      | String c s' =>
          if (c =? "034")%char then
            match scanstring s' with
            | Parsed cs rest => Parsed (JStr cs) rest
            | Invalid => Invalid
            | Starved => Starved
            end
          else if (c =? "{")%char then
            match skip_ws s' with
            | String c1 r1 =>
                if (c1 =? "}")%char then Parsed (JDict []) r1
                else
                  match scan_members fuel' [] (skip_ws s') with
                  | Parsed d rest => Parsed (JDict d) rest
                  | Invalid => Invalid
                  | Starved => Starved
                  end
            | EmptyString => Invalid
            end
          else if (c =? "[")%char then
            match skip_ws s' with
            | String c1 r1 =>
                if (c1 =? "]")%char then Parsed (JList []) r1
                else
                  match scan_elements fuel' (skip_ws s') with
                  | Parsed l rest => Parsed (JList l) rest
                  | Invalid => Invalid
                  | Starved => Starved
                  end
            | EmptyString => Invalid
            end
          else scan_atom s
      end
  end

with scan_elements (fuel : nat) (s : string) {struct fuel} : scan (list json) :=
  match fuel with
  | 0 => Starved
  | S fuel' =>
      match scan_once fuel' s with
      | Parsed v r =>
          match skip_ws r with
          | String c r1 =>
              if (c =? "]")%char then Parsed [v] r1
              else if (c =? ",")%char then
                match scan_elements fuel' (skip_ws r1) with
                | Parsed vs rest => Parsed (v :: vs) rest
                | other => other
                end
              else Invalid
          | EmptyString => Invalid
          end
      | Invalid => Invalid
      | Starved => Starved
      end
  end

with scan_members (fuel : nat) (d : list (list N * json)) (s : string)
  {struct fuel} : scan (list (list N * json)) :=
  match fuel with
  | 0 => Starved
  | S fuel' =>
      match s with
      | String q s1 =>
          if (q =? "034")%char then
            match scanstring s1 with
            | Parsed key r =>
                match skip_ws r with
                | String c r1 =>
                    if (c =? ":")%char then
                      match scan_once fuel' (skip_ws r1) with
                      | Parsed v r2 =>
                          match skip_ws r2 with
                          | String c2 r3 =>
                              if (c2 =? "}")%char then Parsed (dict_set key v d) r3
                              else if (c2 =? ",")%char then
                                scan_members fuel' (dict_set key v d) (skip_ws r3)
                              else Invalid
                          | EmptyString => Invalid
                          end
                      | Invalid => Invalid
                      | Starved => Starved
                      end
                    else Invalid
                | EmptyString => Invalid
                end
            | Invalid => Invalid
            | Starved => Starved
            end
          else Invalid
      | EmptyString => Invalid
      end
  end.

(** [json.loads(t)]: leading blanks, one value, trailing blanks and the
    end of the text; [None] is [JSONDecodeError].  Every call of a scanner
    is on a text at least one character shorter two calls later, so twice
    the length of the text is fuel enough. *)
Definition loads (t : string) : option json :=
  match scan_once (S (2 * String.length t)) (skip_ws t) with
  | Parsed v rest =>
      match skip_ws rest with
      | EmptyString => Some v
      | String _ _ => None
      end
  | Invalid => None
  | Starved => None
  end.

(** *** The shape of a dump *)

(** What may follow a value in a dump: the item separator or the line
    break before the closing bracket. *)
Definition closes (c : ascii) : Prop := c = ","%char \/ c = "010"%char.

(** A text that starts where a value, a key or a bracket starts. *)
Definition solid (s : string) : Prop := skip_ws s = s.

(** [text] is the dump of the value [v]: it starts solid and scans to
    [v], before a separator or a line break. *)
Definition reads (text : string) (v : json) : Prop :=
  (forall rest, solid (text ++ rest))
  /\ forall fuel c r, closes c ->
       scan_once (S fuel) (text ++ String c r) = Parsed v (String c r).

(** The separator of the books of a dump. *)
Definition separator : string := "," ++ newline_indent 1.

End Json.

(** ** The state of a run and its effects *)

Inductive exn :=
| FileNotFoundError
| JSONDecodeError
| UnicodeDecodeError
| ValueError
| ZeroDivisionError
| IndexError.

(** The storage file [library_data.json]: not there, there with bytes
    that are no text in the encoding of the platform, or there with a
    text. *)
Inductive storage :=
| Absent
| Undecodable
| Text (t : string).

(** [mem]: the list object bound to [library]; [disk]: the storage
    file; [writes]: how many times the file was opened for writing and
    rewritten, a ghost of the model that makes a call of [save_library]
    visible. *)
Record world := World {
  mem : list book;
  disk : storage;
  writes : nat
}.

Inductive result (A : Type) :=
| Returns (a : A)
| Raises (e : exn).
Arguments Returns {A} a.
Arguments Raises {A} e.

(** A computation: from a state to what it returns or raises, and the
    state it leaves. *)
Definition M (A : Type) : Type := world -> result A * world.

Definition ret {A} (a : A) : M A := fun w => (Returns a, w).

Definition raise {A} (e : exn) : M A := fun w => (Raises e, w).

Definition bind {A B} (c : M A) (k : A -> M B) : M B :=
  fun w =>
    match c w with
    | (Returns a, w') => k a w'
    | (Raises e, w') => (Raises e, w')
    end.

(** [try: c  except handled: h] *)
Definition try_except {A} (c : M A) (handled : exn -> bool) (h : M A) : M A :=
  fun w =>
    match c w with
    | (Returns a, w') => (Returns a, w')
    | (Raises e, w') => if handled e then h w' else (Raises e, w')
    end.

Declare Scope py_scope.
Delimit Scope py_scope with py.
Notation "x <- c ;; k" := (bind c (fun x => k))
  (at level 61, c at next level, right associativity) : py_scope.
Notation "c ;; k" := (bind c (fun _ => k))
  (at level 61, right associativity) : py_scope.
Local Open Scope py_scope.

(** Reading [library] and mutating the list it refers to. *)
Definition get_library : M (list book) := fun w => (Returns (mem w), w).

Definition set_library (l : list book) : M unit :=
  fun w => (Returns tt, World l (disk w) (writes w)).

(** [library.append(b)] *)
Definition list_append (b : book) : M unit :=
  l <- get_library ;; set_library (l ++ [b])%list.

(** The list without its first item equal to [b], when there is one. *)
Fixpoint remove_first (b : book) (l : list book) : option (list book) :=
  match l with
  | [] => None
  | x :: l' =>
      if book_eqb x b then Some l'
      else option_map (cons x) (remove_first b l')
  end%list.

(** [library.remove(b)]: [ValueError] when no item equals [b]. *)
Definition list_remove (b : book) : M unit :=
  l <- get_library ;;
  match remove_first b l with
  | Some l' => set_library l'
  | None => raise ValueError
  end.

(** [open(LIBRARY_FILE, "r")] and [file.read()] *)
Definition read_file : M string :=
  fun w =>
    match disk w with
    | Absent => (Raises FileNotFoundError, w)
    | Undecodable => (Raises UnicodeDecodeError, w)
    | Text t => (Returns t, w)
    end.

(** [open(LIBRARY_FILE, "w")] and [file.write(t)]: the file is created or
    truncated and holds [t]. *)
Definition write_file (t : string) : M unit :=
  fun w => (Returns tt, World (mem w) (Text t) (S (writes w))).

(** [json.load(file)] *)
Definition json_load : M json :=
  t <- read_file ;;
  match Json.loads t with
  | Some v => ret v
  | None => raise JSONDecodeError
  end.

(** [json.dump(library, file, indent=4)] *)
Definition json_dump (library : list book) : M unit :=
  write_file (Json.dumps library).

(** ** The store *)

Definition load_library : M json :=
  try_except json_load
    (fun e => match e with
              | FileNotFoundError | JSONDecodeError => true
              | _ => false
              end)
    (ret (JList [])).

Definition save_library (library : list book) : M unit :=
  json_dump library.

Definition add_book (title author : string) (year : Z) (genre : string)
  (read_status : bool) : M unit :=
  list_append (Book title author year genre read_status) ;;
  library <- get_library ;;
  save_library library.

(** The loop of [remove_book] over the items of [library]; it leaves at
    the first item it removes. *)
Fixpoint remove_loop (items : list book) (title_ : string) : M bool :=
  match items with
  | [] => ret false
  | book :: items' =>
      if String.eqb (lower (title book)) (lower title_) then
        list_remove book ;;
        library <- get_library ;;
        save_library library ;;
        ret true
      else remove_loop items' title_
  end%list.

Definition remove_book (title_ : string) : M bool :=
  library <- get_library ;;
  remove_loop library title_.

Definition search_books (query : string) : M (list book) :=
  library <- get_library ;;
  ret (filter (fun book => contains (lower query) (lower (title book))
                           || contains (lower query) (lower (author book)))
              library).

(** [a / b] on two [int]: the exact quotient; the rounding of the float
    that Python returns is outside the model. *)
Definition true_div (a b : Z) : M Q :=
  if (b =? 0)%Z then raise ZeroDivisionError
  else ret (Qdiv (inject_Z a) (inject_Z b)).

Definition calculate_statistics : M (Z * Q) :=
  library <- get_library ;;
  let total_books := Z.of_nat (List.length library) in
  let read_books :=
    fold_right Z.add 0%Z (map (fun _ => 1%Z) (filter read library)) in
  read_percentage <-
    (if (total_books >? 0)%Z
     then (x <- true_div read_books total_books ;; ret (Qmult x (inject_Z 100)))
     else ret (inject_Z 0)) ;;
  ret (total_books, read_percentage).

(** [random.choice(seq)]: [seq[i]] for the index [i] that the generator
    draws below [len(seq)], each index as likely as any other; [draw] is
    that index. *)
Definition random_choice (draw : nat) (seq : list book) : M book :=
  match nth_error seq draw with
  | Some b => ret b
  | None => raise IndexError
  end.

Definition get_random_book (draw : nat) : M (option book) :=
  library <- get_library ;;
  match library with
  | [] => ret None
  | _ => (b <- random_choice draw library ;; ret (Some b))
  end%list.

(** When the value that [load_library] returned is a list of books: each
    item a dict of exactly the five keys, a [str] below 256 under title,
    author and genre, an [int] under year, a [bool] under read. *)
Fixpoint uncodes (l : list N) : option string :=
  match l with
  | [] => Some EmptyString
  | n :: l' =>
      if (n <? 256)%N
      then option_map (String (ascii_of_N n)) (uncodes l')
      else None
  end%list.

Definition as_book (v : json) : option book :=
  match v with
  | JDict d =>
      match Json.dict_get (codes "title") d, Json.dict_get (codes "author") d,
            Json.dict_get (codes "year") d, Json.dict_get (codes "genre") d,
            Json.dict_get (codes "read") d with
      | Some (JStr t), Some (JStr a), Some (JInt y), Some (JStr g), Some (JBool r) =>
          match uncodes t, uncodes a, uncodes g with
          | Some t', Some a', Some g' =>
              if (List.length d =? 5)%nat then Some (Book t' a' y g' r) else None
          | _, _, _ => None
          end
      | _, _, _, _, _ => None
      end
  | _ => None
  end.

Fixpoint as_books (l : list json) : option (list book) :=
  match l with
  | [] => Some []
  | v :: l' =>
      match as_book v, as_books l' with
      | Some b, Some bs => Some (b :: bs)
      | _, _ => None
      end
  end%list.

Definition as_library (v : json) : option (list book) :=
  match v with
  | JList l => as_books l
  | _ => None
  end.

(** Running a computation. *)
Definition outcome {A} (c : M A) (w : world) : result A := fst (c w).
Definition after {A} (c : M A) (w : world) : world := snd (c w).

(** The storage file holds the library in memory: its text is the dump of
    [mem], and loading it returns the value of [mem]. *)
Definition synchronized (w : world) : Prop :=
  disk w = Text (Json.dumps (mem w))
  /\ outcome load_library w = Returns (Json.of_library (mem w)).

(** [title_] names book [b], case put aside. *)
Definition names (title_ : string) (b : book) : Prop :=
  lower (title b) = lower title_.



(** How many books of a library are marked read. *)
Definition read_count (l : list book) : nat :=
  count_occ bool_dec (map read l) true.


(** A shelf to try the store on. *)
Module Shelf.
Definition hobbit := Book "The Hobbit" "J.R.R. Tolkien" 1937 "Fantasy" false.
Definition dune := Book "Dune" "Frank Herbert" 1965 "SF" true.
Definition dune_film := Book "DUNE" "Frank Herbert" 1984 "SF" false.
Definition shelf : list book := [hobbit; dune; dune_film; dune].
Definition home : world := World shelf Absent 0.
End Shelf.

(** The tests of the loop of [remove_book] and of the comprehension of
    [search_books], as functions of a book. *)
Definition bears (title_ : string) (b : book) : bool :=
  String.eqb (lower (title b)) (lower title_).


(** A character of a plain ASCII text file: a line break or a character
    from blank to tilde. *)
Definition plain_char (c : ascii) : bool :=
  let n := nat_of_ascii c in
  ((n =? 10) || ((32 <=? n) && (n <=? 126)))%nat.

Fixpoint plain (s : string) : bool :=
  match s with
  | EmptyString => true
  | String c s' => plain_char c && plain s'
  end.

(** ** The script *)

(** The value that [load_library] returned is the value of a library of
    the model, item for item and key for key in the order of [add_book]:
    what a file that the script wrote itself, and the missing or
    unreadable file, give.  The functions of the store are run on such a
    value; on another one ([None]) the run is outside the model. *)
Definition own_book (v : json) : option book :=
  match v with
  | JDict [(k1, JStr t); (k2, JStr a); (k3, JInt y); (k4, JStr g);
           (k5, JBool r)] =>
      if Json.str_eqb k1 (codes "title") && Json.str_eqb k2 (codes "author")
         && Json.str_eqb k3 (codes "year") && Json.str_eqb k4 (codes "genre")
         && Json.str_eqb k5 (codes "read")
      then
        match uncodes t, uncodes a, uncodes g with
        | Some t', Some a', Some g' => Some (Book t' a' y g' r)
        | _, _, _ => None
        end
      else None
  | _ => None
  end.

Fixpoint own_books (l : list json) : option (list book) :=
  match l with
  | [] => Some []
  | v :: l' =>
      match own_book v, own_books l' with
      | Some b, Some bs => Some (b :: bs)
      | _, _ => None
      end
  end%list.

Definition own_library (v : json) : option (list book) :=
  match v with
  | JList l => own_books l
  | _ => None
  end.


Definition LIBRARY_IMAGE_URL : string :=
  "https://images.pexels.com/photos/159711/books-bookstore-book-reading-159711.jpeg".

Definition LOCAL_IMAGE_PATH : string := "library_cover.jpg".

(** [exists_]: whether [Path(LOCAL_IMAGE_PATH).exists()]. *)
Definition get_library_image (exists_ : bool) : string :=
  if exists_ then LOCAL_IMAGE_PATH else LIBRARY_IMAGE_URL.

(** The tag of a book in a listing: read or unread. *)
Inductive status :=
| MarkedRead
| MarkedUnread.

Definition status_of (b : book) : status :=
  if read b then MarkedRead else MarkedUnread.

(** What a run of the script shows that depends on the library or on
    what the user entered, by the call that shows it and the values that
    go into its text; the wording of the texts and the widgets that are
    always there (titles, input fields, buttons) are left out. *)
Inductive shown :=
| Welcome (image : string)
| Added (title_ : string)
| Removed (title_ : string)
| NotFound
| FoundCount (n : nat)
| FoundLine (b : book) (s : status)
| NoneFound
| TotalBooks (n : nat)
| LibraryLine (b : book) (s : status)
| EmptyLibrary
| Metrics (total : Z) (percentage : Q)
| Progress (value : Q)
| Suggestion (b : book) (s : status)
| NoBooksYet.

(** The entry of the menu that is chosen and what the widgets of its
    page return in the run: the values of the inputs, whether the button
    was pressed, whether the cover image is there, the index that
    [random.choice] draws. *)
Inductive request :=
| Home (cover : bool)
| AddBook (title_ author_ : string) (year_ : Z) (genre_ : string)
    (read_status submitted : bool)
| RemoveBook (title_ : string) (pressed : bool)
| SearchBooks (query : string) (pressed : bool)
| ViewLibrary
| Statistics
| RandomBook (draw : nat).

(** The branch of the menu, on the library that was loaded. *)
Definition branch (r : request) : M (list shown) :=
  match r with
  | Home cover => ret [Welcome (get_library_image cover)]
  | AddBook t a y g rs submitted =>
      if submitted
      then (add_book t a y g rs ;; ret [Added t])
      else ret []
  | RemoveBook t pressed =>
      if pressed
      then (removed <- remove_book t ;;
            if removed then ret [Removed t] else ret [NotFound])
      else ret []
  | SearchBooks query pressed =>
      if pressed
      then (results <- search_books query ;;
            match results with
            | [] => ret [NoneFound]
            | _ => ret (FoundCount (List.length results)
                        :: map (fun b => FoundLine b (status_of b)) results)
            end)
      else ret []
  | ViewLibrary =>
      library <- get_library ;;
      match library with
      | [] => ret [EmptyLibrary]
      | _ => ret (TotalBooks (List.length library)
                  :: map (fun b => LibraryLine b (status_of b)) library)
      end
  | Statistics =>
      stats <- calculate_statistics ;;
      ret [Metrics (fst stats) (snd stats);
           Progress (Qdiv (snd stats) (inject_Z 100))]
  | RandomBook draw =>
      book <- get_random_book draw ;;
      match book with
      | Some b => ret [Suggestion b (status_of b)]
      | None => ret [NoBooksYet]
      end
  end%list.

(** One run of the script: [library = load_library()], then the branch of
    the menu. *)
Definition page (r : request) : M (option (list shown)) :=
  v <- load_library ;;
  match own_library v with
  | None => ret None
  | Some loaded =>
      set_library loaded ;;
      out <- branch r ;;
      ret (Some out)
  end.


(** A run that calls [add_book] or [remove_book]. *)
Definition submits (r : request) : bool :=
  match r with
  | AddBook _ _ _ _ _ submitted => submitted
  | RemoveBook _ pressed => pressed
  | _ => false
  end.


(** ** Strings *)




(** ** Books *)

Lemma book_eqb_eq (a b : book) : book_eqb a b = true <-> a = b.
Proof.
  unfold book_eqb. destruct a, b; simpl.
  rewrite !andb_true_iff, !String.eqb_eq, Z.eqb_eq, Bool.eqb_true_iff.
  split.
  - intros [[[[-> ->] ->] ->] ->]. reflexivity.
  - intros H. injection H; intros; subst. auto.
Qed.

Lemma book_eq_dec (a b : book) : {a = b} + {a <> b}.
Proof.
  destruct (book_eqb a b) eqn:E.
  - left. now apply book_eqb_eq.
  - right. intros H. apply book_eqb_eq in H. congruence.
Defined.

Lemma names_dec (title_ : string) (b : book) :
  String.eqb (lower (title b)) (lower title_) = true <-> names title_ b.
Proof. apply String.eqb_eq. Qed.

(** [list.remove] takes out the book that the loop stopped at: no book
    before it can be equal to it, for it would bear the name too. *)
Lemma remove_first_at (title_ : string) (before behind : list book) (b : book) :
  names title_ b ->
  (forall x, In x before -> ~ names title_ x) ->
  remove_first b (before ++ b :: behind)%list = Some (before ++ behind)%list.
Proof.
  intros Hb. induction before as [|x before IH]; intros Hno; simpl.
  - assert (book_eqb b b = true) as -> by now apply book_eqb_eq.
    reflexivity.
  - destruct (book_eqb x b) eqn:E.
    + apply book_eqb_eq in E. subst x.
      exfalso. apply (Hno b); [now left | exact Hb].
    + rewrite IH; [reflexivity|]. intros y Hy. apply Hno. now right.
Qed.

Lemma remove_loop_skip (title_ : string) (before items : list book) (w : world) :
  (forall x, In x before -> ~ names title_ x) ->
  remove_loop (before ++ items)%list title_ w = remove_loop items title_ w.
Proof.
  induction before as [|x before IH]; intros Hno; simpl; [reflexivity|].
  destruct (String.eqb (lower (title x)) (lower title_)) eqn:E.
  - apply names_dec in E. exfalso. apply (Hno x); [now left | exact E].
  - apply IH. intros y Hy. apply Hno. now right.
Qed.

(** The first book that bears a name, when one does. *)
Lemma first_named (title_ : string) (l : list book) :
  (exists x, In x l /\ names title_ x) ->
  exists before b behind,
    l = (before ++ b :: behind)%list
    /\ names title_ b
    /\ (forall x, In x before -> ~ names title_ x).
Proof.
  induction l as [|y l IH]; intros [x [Hin Hx]]; [destruct Hin|].
  destruct (String.eqb (lower (title y)) (lower title_)) eqn:E.
  - apply names_dec in E. exists [], y, l. repeat split; auto.
  - destruct IH as [before [b [behind [Hl [Hb Hno]]]]].
    + destruct Hin as [->|Hin].
      * apply names_dec in Hx. congruence.
      * now exists x.
    + exists (y :: before)%list, b, behind. repeat split; auto.
      * simpl. now rewrite Hl.
      * intros z [<-|Hz]; [|now apply Hno].
        intros Hy. apply names_dec in Hy. congruence.
Qed.

(** ** The store in memory *)

Lemma remove_book_hit (w : world) (title_ : string)
  (before behind : list book) (b : book) :
  mem w = (before ++ b :: behind)%list ->
  names title_ b ->
  (forall x, In x before -> ~ names title_ x) ->
  remove_book title_ w
  = (Returns true,
     World (before ++ behind) (Text (Json.dumps (before ++ behind)%list))
           (S (writes w))).
Proof.
  intros Hl Hb Hno.
  unfold remove_book, bind at 1, get_library. rewrite Hl.
  rewrite remove_loop_skip by exact Hno.
  cbn [remove_loop]. rewrite (proj2 (names_dec title_ b) Hb).
  unfold bind at 1, list_remove, bind at 1, get_library. rewrite Hl.
  rewrite (remove_first_at title_) by assumption.
  reflexivity.
Qed.

Lemma remove_book_miss (w : world) (title_ : string) :
  (forall x, In x (mem w) -> ~ names title_ x) ->
  remove_book title_ w = (Returns false, w).
Proof.
  intros Hno. unfold remove_book, bind, get_library.
  rewrite <- (List.app_nil_r (mem w)).
  rewrite remove_loop_skip by exact Hno. reflexivity.
Qed.

Lemma named_or_not (title_ : string) (l : list book) :
  (exists x, In x l /\ names title_ x)
  \/ (forall x, In x l -> ~ names title_ x).
Proof.
  induction l as [|y l [[x [Hin Hx]]|Hno]].
  - right. intros x [].
  - left. exists x. split; [now right | exact Hx].
  - destruct (String.eqb (lower (title y)) (lower title_)) eqn:E.
    + left. exists y. split; [now left | now apply names_dec].
    + right. intros x [<-|Hin]; [|now apply Hno].
      intros Hy. apply names_dec in Hy. congruence.
Qed.


(** C5. When no book of the library bears the title, [remove_book] returns
    [False] and leaves the state as it found it: the list in memory, the
    storage file, and no rewrite of the file. *)
Theorem remove_book_no_match (w : world) (title_ : string) :
  (forall x, In x (mem w) -> ~ names title_ x) ->
  remove_book title_ w = (Returns false, w)
  /\ mem (after (remove_book title_) w) = mem w
  /\ disk (after (remove_book title_) w) = disk w
  /\ writes (after (remove_book title_) w) = writes w.
Proof.
  intros Hno. unfold after.
  rewrite (remove_book_miss w title_ Hno). repeat split.
Qed.

(** C7. [add_book] puts one book, made of the five values it is given, at
    the end of the library: the library is one book longer, the books
    that were there keep their places, the last book is the new one, also
    when an equal book is in the library already (it then occurs once
    more); and it calls [save_library] on the longer library. *)
Theorem add_book_appends (w : world) (t a : string) (y : Z) (g : string) (r : bool) :
  let b := Book t a y g r in
  let w' := after (add_book t a y g r) w in
  add_book t a y g r w
  = (Returns tt,
     World (mem w ++ [b]) (Text (Json.dumps (mem w ++ [b])%list)) (S (writes w)))
  /\ add_book t a y g r w
     = save_library (mem w ++ [b]) (World (mem w ++ [b]) (disk w) (writes w))
  /\ List.length (mem w') = S (List.length (mem w))
  /\ firstn (List.length (mem w)) (mem w') = mem w
  /\ nth_error (mem w') (List.length (mem w)) = Some b
  /\ title b = t /\ author b = a /\ year b = y /\ genre b = g /\ read b = r
  /\ count_occ book_eq_dec (mem w') b = S (count_occ book_eq_dec (mem w) b).
Proof.
  intros b w'. unfold w', after. cbn.
  repeat split.
  - rewrite length_app. simpl. lia.
  - rewrite firstn_app, firstn_all, Nat.sub_diag. simpl. apply List.app_nil_r.
  - rewrite nth_error_app2, Nat.sub_diag by lia. reflexivity.
  - rewrite count_occ_app. simpl.
    destruct (book_eq_dec _ _) as [_|N]; [lia | now destruct N].
Qed.


Lemma remove_book_no_match_witness :
  remove_book "Emma" Shelf.home = (Returns false, Shelf.home)
  /\ mem (after (remove_book "Emma") Shelf.home) = mem Shelf.home
  /\ disk (after (remove_book "Emma") Shelf.home) = disk Shelf.home
  /\ writes (after (remove_book "Emma") Shelf.home) = writes Shelf.home.
Proof.
  apply (remove_book_no_match Shelf.home "Emma").
  intros x Hx. simpl in Hx.
  destruct Hx as [<-|[<-|[<-|[<-|[]]]]]; unfold names; simpl; discriminate.
Defined.







Lemma sum_ones_read (l : list book) :
  fold_right Z.add 0%Z (map (fun _ => 1%Z) (filter read l))
  = Z.of_nat (read_count l).
Proof.
  unfold read_count. induction l as [|b l IH]; [reflexivity|].
  cbn [filter map]. destruct (read b); cbn [map fold_right count_occ].
  - destruct (bool_dec true true) as [_|N]; [|now destruct N].
    rewrite IH, Nat2Z.inj_succ. lia.
  - destruct (bool_dec false true) as [N|_]; [discriminate | exact IH].
Qed.



(** C9. On an empty library [get_random_book] returns [None]; on a library
    with books it returns the book at the index that the generator draws
    below the length, a book of the library, so that the draws, each as
    likely as any other, give the places of the library one for one; it
    raises no error in either case and leaves the state alone. *)
Theorem get_random_book_spec (w : world) :
  (mem w = [] -> forall draw, get_random_book draw w = (Returns None, w))
  /\ (forall draw, draw < List.length (mem w) ->
      exists b,
        get_random_book draw w = (Returns (Some b), w)
        /\ nth_error (mem w) draw = Some b
        /\ In b (mem w))
  /\ map (fun draw => outcome (get_random_book draw) w)
         (seq 0 (List.length (mem w)))
     = map (fun b => Returns (Some b)) (mem w).
Proof.
  assert (forall draw b, nth_error (mem w) draw = Some b ->
            get_random_book draw w = (Returns (Some b), w)) as Hnth.
  { intros draw b H. unfold get_random_book, bind at 1, get_library.
    destruct (mem w) as [|x l] eqn:E; [destruct draw; discriminate|].
    unfold bind, random_choice. rewrite H. reflexivity. }
  split; [|split].
  - intros E draw. unfold get_random_book, bind, get_library. rewrite E.
    reflexivity.
  - intros draw Hlt. destruct (nth_error (mem w) draw) as [b|] eqn:E.
    + exists b. split; [now apply Hnth|]. split; [reflexivity|].
      eapply nth_error_In; eassumption.
    + apply nth_error_None in E. lia.
  - apply nth_error_ext. intros i.
    rewrite !nth_error_map.
    destruct (nth_error (mem w) i) as [b|] eqn:E.
    + assert (i < List.length (mem w)) as Hi
        by (apply nth_error_Some; congruence).
      rewrite nth_error_seq. 
      assert ((i <? List.length (mem w))%nat = true) as -> by (apply Nat.ltb_lt; lia).
      simpl. unfold outcome. rewrite (Hnth i b E). reflexivity.
    + apply nth_error_None in E.
      rewrite nth_error_seq.
      assert ((i <? List.length (mem w))%nat = false) as -> by (apply Nat.ltb_ge; lia).
      reflexivity.
Qed.

Lemma get_random_book_spec_witness :
  (forall draw, get_random_book draw (World [] Absent 0) = (Returns None, World [] Absent 0))
  /\ exists b,
       get_random_book 2 Shelf.home = (Returns (Some b), Shelf.home)
       /\ nth_error (mem Shelf.home) 2 = Some b
       /\ In b (mem Shelf.home).
Proof.
  split.
  - apply (proj1 (get_random_book_spec (World [] Absent 0))). reflexivity.
  - apply (proj1 (proj2 (get_random_book_spec Shelf.home)) 2). simpl. lia.
Defined.

(** C10. [search_books], [calculate_statistics] and [get_random_book]
    leave the state as they find it: the list in memory and the storage
    file are the same afterwards, and the file was not rewritten. *)
Theorem read_only_frame (w : world) (query : string) (draw : nat) :
  after (search_books query) w = w
  /\ after calculate_statistics w = w
  /\ after (get_random_book draw) w = w.
Proof.
  unfold after. split; [reflexivity|]. split.
  - unfold calculate_statistics, bind at 1, get_library.
    destruct (Z.of_nat (List.length (mem w)) >? 0)%Z eqn:E.
    + unfold bind at 1, bind at 1, true_div.
      destruct (Z.of_nat (List.length (mem w)) =? 0)%Z; reflexivity.
    + reflexivity.
  - unfold get_random_book, bind at 1, get_library.
    destruct (mem w) as [|x l]; [reflexivity|].
    unfold bind, random_choice.
    destruct (nth_error (x :: l) draw); reflexivity.
Qed.

(** ** The text of a dump and its scan *)

Module Codec.
Import Json.

Lemma append_assoc (a b c : string) : (a ++ b) ++ c = a ++ (b ++ c).
Proof. induction a as [|x a IH]; simpl; [reflexivity | now rewrite IH]. Qed.

Lemma length_append (a b : string) :
  String.length (a ++ b) = String.length a + String.length b.
Proof. induction a as [|x a IH]; simpl; [reflexivity | now rewrite IH]. Qed.

(** *** The scanner never runs out of fuel *)

(** Case analysis on what the matches of the hypotheses look at. *)
Ltac break_matches :=
  repeat match goal with
         | E : context [match ?x with _ => _ end] |- _ =>
             first [is_var x; destruct x | destruct x eqn:?]
         | E : context [if ?b then _ else _] |- _ =>
             first [is_var b; destruct b | destruct b eqn:?]
         end.

Lemma skip_ws_length (s : string) :
  String.length (skip_ws s) <= String.length s.
Proof.
  induction s as [|c s IH]; [reflexivity|].
  cbn [skip_ws]. destruct (is_ws c); simpl; lia.
Qed.

(** The length facts of the blanks skipped in the goal. *)
Ltac note_skip_ws :=
  repeat match goal with
         | E : skip_ws ?a = ?b |- _ =>
             lazymatch goal with
             | _ : String.length b <= String.length a |- _ => fail
             | _ => let L := fresh "L" in
                    assert (String.length b <= String.length a) as L
                      by (rewrite <- E; apply skip_ws_length)
             end
         | H : context [String.length (skip_ws ?a)] |- _ =>
             lazymatch goal with
             | _ : String.length (skip_ws a) <= String.length a |- _ => fail
             | _ => pose proof (skip_ws_length a)
             end
         | |- context [String.length (skip_ws ?a)] =>
             lazymatch goal with
             | _ : String.length (skip_ws a) <= String.length a |- _ => fail
             | _ => pose proof (skip_ws_length a)
             end
         end.

Lemma strip_length (p s r : string) :
  strip p s = Some r -> String.length s = String.length p + String.length r.
Proof.
  revert s; induction p as [|a p IH]; intros [|b s] H; simpl in H;
    try discriminate; try (injection H as <-; reflexivity).
  destruct (a =? b)%char; [|discriminate].
  simpl. now rewrite (IH s H).
Qed.

Lemma more_parsed (c : N) (x : scan (list N)) (cs : list N) (r : string) :
  more c x = Parsed cs r -> exists cs', x = Parsed cs' r.
Proof.
  destruct x; simpl; intros H; try discriminate.
  injection H as _ <-. now eexists.
Qed.

Lemma more_starved (c : N) (x : scan (list N)) :
  more c x = Starved -> x = Starved.
Proof. destruct x; simpl; intros H; try discriminate; reflexivity. Qed.

Lemma scanstring_length_below (n : nat) (s : string) (cs : list N) (r : string) :
  String.length s <= n ->
  scanstring s = Parsed cs r -> String.length r < String.length s.
Proof.
  revert s cs r. induction n as [|n IH]; intros s cs r Hn H.
  - destruct s; [discriminate | simpl in Hn; lia].
  - destruct s as [|c s]; [discriminate|].
    cbn [scanstring] in H. break_matches; try discriminate;
      try (injection H as _ <-; simpl; lia);
      apply more_parsed in H; destruct H as [cs' H];
      apply IH in H; simpl in *; lia.
Qed.

Lemma scanstring_length (s : string) (cs : list N) (r : string) :
  scanstring s = Parsed cs r -> String.length r < String.length s.
Proof. apply (scanstring_length_below (String.length s)). lia. Qed.

Lemma scanstring_fed_below (n : nat) (s : string) :
  String.length s <= n -> scanstring s <> Starved.
Proof.
  revert s. induction n as [|n IH]; intros s Hn H.
  - destruct s; [discriminate | simpl in Hn; lia].
  - destruct s as [|c s]; [discriminate|].
    cbn [scanstring] in H. break_matches; try discriminate;
      apply more_starved in H; apply IH in H; simpl in *; try lia; assumption.
Qed.

Lemma scanstring_fed (s : string) : scanstring s <> Starved.
Proof. apply (scanstring_fed_below (String.length s)). lia. Qed.

Lemma digits_length (s : string) (d : Decimal.uint) (r : string) :
  digits s = (d, r) -> String.length r <= String.length s.
Proof.
  revert d r; induction s as [|c s IH]; intros d r H; cbn [digits] in H.
  - injection H as _ <-. reflexivity.
  - destruct (digits s) as [d' r'] eqn:E.
    specialize (IH d' r' eq_refl).
    destruct (uint_of_char c (Some d')); injection H as _ <-; simpl; lia.
Qed.

Lemma scan_integer_length (s : string) (neg : bool) (d : Decimal.uint) (r : string) :
  scan_integer s = Some (neg, d, r) -> String.length r < String.length s.
Proof.
  assert (forall (sign : bool) s1,
             match s1 with
             | EmptyString => None
             | String c s2 =>
                 if (c =? "0")%char
                 then Some (sign, Decimal.D0 Decimal.Nil, s2)
                 else match digits s1 with
                      | (Decimal.Nil, _) => None
                      | (d, rest) => Some (sign, d, rest)
                      end
             end = Some (neg, d, r) ->
             String.length r < String.length s1) as Hcore.
  { intros sign [|c s2] H1; [discriminate|].
    destruct (c =? "0")%char.
    - inversion H1; subst. simpl. lia.
    - destruct (digits (String c s2)) as [d' rest] eqn:Ed.
      cbn [digits] in Ed. destruct (digits s2) as [d2 r2] eqn:E2.
      apply digits_length in E2.
      destruct (uint_of_char c (Some d2)).
      + inversion Ed; subst.
        destruct d'; try discriminate; inversion H1; subst; simpl; lia.
      + inversion Ed; subst. discriminate. }
  unfold scan_integer. intros H.
  destruct s as [|c s']; [discriminate|].
  destruct (c =? "-")%char.
  - apply (Hcore true s') in H. simpl. lia.
  - apply (Hcore false (String c s')) in H. exact H.
Qed.

Lemma scan_frac_length (s f r : string) :
  scan_frac s = Some (f, r) -> String.length r < String.length s.
Proof.
  unfold scan_frac. intros H.
  destruct s as [|c s']; [discriminate|].
  destruct (c =? ".")%char; [|discriminate].
  destruct (digits s') as [d rest] eqn:Ed. apply digits_length in Ed.
  destruct d; try discriminate; injection H as _ <-; simpl; lia.
Qed.

Lemma scan_exp_length (s e r : string) :
  scan_exp s = Some (e, r) -> String.length r < String.length s.
Proof.
  unfold scan_exp. intros H.
  destruct s as [|c s']; [discriminate|].
  destruct ((c =? "e") || (c =? "E"))%char; [|discriminate].
  destruct s' as [|g s''].
  - cbn [digits] in H. discriminate.
  - destruct ((g =? "-") || (g =? "+"))%char.
    + destruct (digits s'') as [d rest] eqn:Ed. apply digits_length in Ed.
      destruct d; try discriminate; injection H as _ <-; simpl; lia.
    + destruct (digits (String g s'')) as [d rest] eqn:Ed.
      apply digits_length in Ed.
      destruct d; try discriminate; injection H as _ <-; simpl in *; lia.
Qed.

Lemma scan_number_length (s : string) (v : json) (r : string) :
  scan_number s = Some (v, r) -> String.length r < String.length s.
Proof.
  unfold scan_number. intros H.
  destruct (scan_integer s) as [[[neg d] r1]|] eqn:Ei; [|discriminate].
  apply scan_integer_length in Ei.
  assert (String.length r <= String.length r1) as Hr.
  { destruct (scan_frac r1) as [[f r2]|] eqn:Ef.
    - apply scan_frac_length in Ef.
      destruct (scan_exp r2) as [[e r3]|] eqn:Ee.
      + apply scan_exp_length in Ee.
        destruct f, e; inversion H; subst; lia.
      + destruct f; inversion H; subst; lia.
    - destruct (scan_exp r1) as [[e r3]|] eqn:Ee.
      + apply scan_exp_length in Ee.
        destruct e; inversion H; subst; lia.
      + inversion H; subst. lia. }
  lia.
Qed.

Lemma scan_atom_length (s : string) (v : json) (r : string) :
  scan_atom s = Parsed v r -> String.length r < String.length s.
Proof.
  unfold scan_atom. intros H.
  repeat match type of H with
         | context [strip ?p s] =>
             let E := fresh "E" in
             destruct (strip p s) eqn:E;
             [inversion H; subst; apply strip_length in E; simpl in E; lia|]
         | context [scan_number s] =>
             let E := fresh "E" in
             destruct (scan_number s) as [[? ?]|] eqn:E;
             [inversion H; subst; now apply scan_number_length in E|]
         end.
  discriminate.
Qed.

Lemma scan_atom_fed (s : string) : scan_atom s <> Starved.
Proof. unfold scan_atom. intros H. break_matches; discriminate. Qed.

(** A scanner that returns a value has moved on in the text. *)
Lemma scan_length (fuel : nat) :
  (forall s v r, scan_once fuel s = Parsed v r ->
                 String.length r < String.length s)
  /\ (forall s l r, scan_elements fuel s = Parsed l r ->
                    String.length r < String.length s)
  /\ (forall d s d' r, scan_members fuel d s = Parsed d' r ->
                       String.length r < String.length s).
Proof.
  induction fuel as [|fuel (IHo & IHe & IHm)];
    [repeat split; intros; discriminate|].
  split; [|split].
  - intros s v r H. cbn [scan_once] in H.
    break_matches; try discriminate;
      try (now apply scan_atom_length in H);
      injection H as _ <-; note_skip_ws;
      repeat match goal with
             | E : scanstring _ = Parsed _ _ |- _ => apply scanstring_length in E
             | E : scan_elements fuel _ = Parsed _ _ |- _ => apply IHe in E
             | E : scan_members fuel _ _ = Parsed _ _ |- _ => apply IHm in E
             end;
      note_skip_ws; simpl in *; lia.
  - intros s l r H. cbn [scan_elements] in H.
    break_matches; try discriminate; injection H as _ <-; note_skip_ws;
      repeat match goal with
             | E : scan_once fuel _ = Parsed _ _ |- _ => apply IHo in E
             | E : scan_elements fuel _ = Parsed _ _ |- _ => apply IHe in E
             end;
      note_skip_ws; simpl in *; lia.
  - intros d s d' r H. cbn [scan_members] in H.
    break_matches; try discriminate;
      try (injection H as _ <-); try (apply IHm in H); note_skip_ws;
      repeat match goal with
             | E : scanstring _ = Parsed _ _ |- _ => apply scanstring_length in E
             | E : scan_once fuel _ = Parsed _ _ |- _ => apply IHo in E
             end;
      note_skip_ws; simpl in *; lia.
Qed.

(** With more than twice the length of the text as fuel the scanner comes
    to an end: a value or [JSONDecodeError]. *)
Lemma scan_fed (fuel : nat) :
  (forall s, 2 * String.length s < fuel -> scan_once fuel s <> Starved)
  /\ (forall s, 2 * String.length s + 1 < fuel ->
                scan_elements fuel s <> Starved)
  /\ (forall d s, 2 * String.length s + 1 < fuel ->
                  scan_members fuel d s <> Starved).
Proof.
  induction fuel as [|fuel (IHo & IHe & IHm)];
    [repeat split; intros; lia|].
  destruct (scan_length fuel) as (Lo & Le & Lm).
  split; [|split].
  - intros s Hs H. cbn [scan_once] in H.
    break_matches; try discriminate; note_skip_ws;
      try (now apply scan_atom_fed in H);
      try (match goal with
           | E : scanstring _ = Starved |- _ => now apply scanstring_fed in E
           end);
      match goal with
      | E : scan_elements fuel _ = Starved |- _ => apply IHe in E
      | E : scan_members fuel _ _ = Starved |- _ => apply IHm in E
      end; try assumption; note_skip_ws; simpl in *; lia.
  - intros s Hs H. cbn [scan_elements] in H.
    break_matches; try discriminate; note_skip_ws;
      repeat match goal with
             | E : scan_once fuel _ = Parsed _ _ |- _ => apply Lo in E
             end;
      match goal with
      | E : scan_elements fuel _ = Starved |- _ => apply IHe in E
      | E : scan_once fuel _ = Starved |- _ => apply IHo in E
      end; try assumption; note_skip_ws; simpl in *; lia.
  - intros d s Hs H. cbn [scan_members] in H.
    break_matches; try discriminate; note_skip_ws;
      try (match goal with
           | E : scanstring _ = Starved |- _ => now apply scanstring_fed in E
           end);
      repeat match goal with
             | E : scanstring _ = Parsed _ _ |- _ => apply scanstring_length in E
             | E : scan_once fuel _ = Parsed _ _ |- _ => apply Lo in E
             end;
      try (apply IHm in H; try assumption; note_skip_ws; simpl in *; lia);
      match goal with
      | E : scan_once fuel _ = Starved |- _ => apply IHo in E
      end; try assumption; note_skip_ws; simpl in *; lia.
Qed.

(** A call of a scanner with the smaller fuel came to an end, so the
    call with the larger fuel returns the same. *)
Ltac settle_call IH big call :=
  let E := fresh "E" in
  destruct call eqn:E;
  [rewrite IH, E by (try lia; rewrite E; discriminate)
  |rewrite IH, E by (try lia; rewrite E; discriminate)
  |now exfalso].

(** More fuel does not change what a scanner that came to an end
    returned. *)
Lemma scan_stable (fuel : nat) :
  (forall big s, fuel <= big -> scan_once fuel s <> Starved ->
                 scan_once big s = scan_once fuel s)
  /\ (forall big s, fuel <= big -> scan_elements fuel s <> Starved ->
                    scan_elements big s = scan_elements fuel s)
  /\ (forall big d s, fuel <= big -> scan_members fuel d s <> Starved ->
                      scan_members big d s = scan_members fuel d s).
Proof.
  induction fuel as [|fuel (IHo & IHe & IHm)];
    [repeat split; intros; now exfalso|].
  split; [|split].
  - intros big s Hle H. destruct big as [|big]; [lia|].
    cbn [scan_once] in H. cbn [scan_once].
    repeat match goal with
           | |- ?x = ?x => reflexivity
           | |- context [match scan_elements fuel ?x with _ => _ end] =>
               settle_call (IHe big x) big (scan_elements fuel x)
           | |- context [match scan_members fuel ?d ?x with _ => _ end] =>
               settle_call (IHm big d x) big (scan_members fuel d x)
           | |- context [match ?x with _ => _ end] => destruct x eqn:?
           | |- context [if ?b then _ else _] => destruct b eqn:?
           end.
  - intros big s Hle H. destruct big as [|big]; [lia|].
    cbn [scan_elements] in H. cbn [scan_elements].
    repeat match goal with
           | |- ?x = ?x => reflexivity
           | |- context [match scan_once fuel ?x with _ => _ end] =>
               settle_call (IHo big x) big (scan_once fuel x)
           | |- context [match scan_elements fuel ?x with _ => _ end] =>
               settle_call (IHe big x) big (scan_elements fuel x)
           | |- context [match ?x with _ => _ end] => destruct x eqn:?
           | |- context [if ?b then _ else _] => destruct b eqn:?
           end.
  - intros big d s Hle H. destruct big as [|big]; [lia|].
    cbn [scan_members] in H. cbn [scan_members].
    repeat match goal with
           | |- ?x = ?x => reflexivity
           | |- scan_members big ?d ?x = scan_members fuel ?d ?x =>
               apply IHm; [lia | exact H]
           | |- context [match scan_once fuel ?x with _ => _ end] =>
               settle_call (IHo big x) big (scan_once fuel x)
           | |- context [match ?x with _ => _ end] => destruct x eqn:?
           | |- context [if ?b then _ else _] => destruct b eqn:?
           end.
Qed.

(** [loads] gives [None] only for a text that is no JSON document: the
    scanner stopped at a [JSONDecodeError], or text is left after the
    value. *)
Lemma loads_fed (t : string) :
  scan_once (S (2 * String.length t)) (skip_ws t) <> Starved.
Proof.
  apply (proj1 (scan_fed (S (2 * String.length t)))).
  pose proof (skip_ws_length t). lia.
Qed.

(** The fuel that [loads] takes is as good as any larger one. *)
Lemma loads_fuel (t : string) (fuel : nat) :
  2 * String.length t < fuel ->
  scan_once fuel (skip_ws t)
  = scan_once (S (2 * String.length t)) (skip_ws t).
Proof.
  intros H. apply (proj1 (scan_stable (S (2 * String.length t)))).
  - lia.
  - apply loads_fed.
Qed.

Lemma loads_none (t : string) :
  loads t = None <->
  scan_once (S (2 * String.length t)) (skip_ws t) = Invalid
  \/ exists v rest,
       scan_once (S (2 * String.length t)) (skip_ws t) = Parsed v rest
       /\ skip_ws rest <> EmptyString.
Proof.
  unfold loads. pose proof (loads_fed t) as Hfed.
  destruct (scan_once (S (2 * String.length t)) (skip_ws t)) as [v rest| |].
  - destruct (skip_ws rest) as [|c r] eqn:Er; split.
    + discriminate.
    + intros [H|(v' & rest' & H & Hne)]; [discriminate|].
      injection H as <- <-. now destruct Hne.
    + intros _. right. exists v, rest. split; [reflexivity|].
      rewrite Er. discriminate.
    + reflexivity.
  - split; [now left | reflexivity].
  - now destruct Hfed.
Qed.

(** *** Strings *)

Lemma scanstring_escape_char (c : ascii) (r : string) :
  scanstring (escape_char c ++ r) = more (N_of_ascii c) (scanstring r).
Proof.
  destruct c as [[] [] [] [] [] [] [] []]; reflexivity.
Qed.

Lemma scanstring_escape (s rest : string) :
  scanstring (escape s ++ quote ++ rest) = Parsed (codes s) rest.
Proof.
  induction s as [|c s IH]; [reflexivity|].
  cbn [escape codes]. rewrite append_assoc, scanstring_escape_char, IH.
  reflexivity.
Qed.

Lemma scan_once_str (fuel : nat) (s rest : string) :
  scan_once (S fuel) (encode_str s ++ rest) = Parsed (JStr (codes s)) rest.
Proof.
  unfold encode_str. rewrite !append_assoc.
  change (quote ++ escape s ++ quote ++ rest)
    with (String "034" (escape s ++ quote ++ rest)).
  cbn [scan_once]. cbn [Ascii.eqb Bool.eqb]. rewrite scanstring_escape. reflexivity.
Qed.

(** *** Integers *)

Lemma digits_stop (c : ascii) (r : string) :
  closes c -> digits (String c r) = (Decimal.Nil, String c r).
Proof.
  intros [->| ->]; cbn [digits]; destruct (digits r); reflexivity.
Qed.

Lemma digits_uint (d : Decimal.uint) (c : ascii) (r : string) :
  closes c ->
  digits (NilEmpty.string_of_uint d ++ String c r) = (d, String c r).
Proof.
  intros Hc. induction d; cbn [NilEmpty.string_of_uint append];
    try (cbn [digits]; rewrite IHd; reflexivity).
  now apply digits_stop.
Qed.

(** The decimal writing of a positive number starts with a digit from 1
    to 9. *)
Lemma to_uint_head (p : positive) :
  Pos.to_uint p <> Decimal.Nil /\ forall d, Pos.to_uint p <> Decimal.D0 d.
Proof.
  assert (Decimal.unorm (Pos.to_uint p) = Pos.to_uint p) as Hn.
  { rewrite <- (DecimalPos.Unsigned.to_of (Pos.to_uint p)).
    rewrite DecimalPos.Unsigned.of_to. reflexivity. }
  pose proof (DecimalPos.Unsigned.to_uint_nonzero p) as Hz.
  split; [apply DecimalPos.Unsigned.to_uint_nonnil|].
  intros d Hd.
  assert (Decimal.nzhead (Pos.to_uint p) <> Decimal.Nil) as Hnz.
  { intros E. apply Hz. rewrite <- Hn. apply DecimalFacts.unorm_0. exact E. }
  rewrite DecimalFacts.unorm_nzhead in Hn by exact Hnz.
  apply (DecimalFacts.nzhead_nonzero (Pos.to_uint p) d).
  rewrite Hn. exact Hd.
Qed.

Lemma scan_tail_stop (c : ascii) (r : string) :
  closes c -> scan_frac (String c r) = None /\ scan_exp (String c r) = None.
Proof. intros [->| ->]; split; reflexivity. Qed.

Lemma scan_number_uint (d : Decimal.uint) (c : ascii) (r : string) :
  closes c ->
  d <> Decimal.Nil -> (forall d', d <> Decimal.D0 d') ->
  scan_number (NilEmpty.string_of_uint d ++ String c r)
  = Some (JInt (Z.of_uint d), String c r)
  /\ scan_number (String "-" (NilEmpty.string_of_uint d ++ String c r))
    = Some (JInt (- Z.of_uint d), String c r).
Proof.
  intros Hc Hnil Hzero.
  destruct (scan_tail_stop c r Hc) as [Hf He].
  pose proof (digits_uint d c r Hc) as Hd.
  destruct d; try (now destruct Hnil); try (now destruct (Hzero d));
    unfold scan_number, scan_integer;
    cbn [NilEmpty.string_of_uint append Ascii.eqb Bool.eqb] in Hd |- *;
    rewrite Hd, Hf, He; split; reflexivity.
Qed.

Lemma scan_number_int (z : Z) (c : ascii) (r : string) :
  closes c ->
  scan_number (encode_int z ++ String c r) = Some (JInt z, String c r).
Proof.
  intros Hc. destruct (scan_tail_stop c r Hc) as [Hf He].
  destruct z as [|p|p]; unfold encode_int, Z.to_int.
  - change (scan_number (String "0" (String c r)) = Some (JInt 0, String c r)).
    unfold scan_number, scan_integer. cbn [Ascii.eqb Bool.eqb].
    rewrite Hf, He. reflexivity.
  - destruct (to_uint_head p) as [Hnil Hzero].
    cbn [NilZero.string_of_int]. unfold NilZero.string_of_uint.
    destruct (scan_number_uint (Pos.to_uint p) c r Hc Hnil Hzero) as [H _].
    replace (Z.pos p) with (Z.of_uint (Pos.to_uint p))
      by (unfold Z.of_uint; rewrite DecimalPos.Unsigned.of_to; reflexivity).
    destruct (Pos.to_uint p); try (now destruct Hnil); exact H.
  - destruct (to_uint_head p) as [Hnil Hzero].
    cbn [NilZero.string_of_int]. unfold NilZero.string_of_uint.
    destruct (scan_number_uint (Pos.to_uint p) c r Hc Hnil Hzero) as [_ H].
    replace (Z.neg p) with (- Z.of_uint (Pos.to_uint p))%Z
      by (unfold Z.of_uint; rewrite DecimalPos.Unsigned.of_to; reflexivity).
    destruct (Pos.to_uint p); try (now destruct Hnil); exact H.
Qed.

(** The text of an integer starts with a minus sign or a digit. *)
Lemma encode_int_head (z : Z) :
  exists c tail,
    encode_int z = String c tail
    /\ In c ["-"; "0"; "1"; "2"; "3"; "4"; "5"; "6"; "7"; "8"; "9"]%char.
Proof.
  destruct z as [|p|p]; unfold encode_int, Z.to_int;
    cbn [NilZero.string_of_int].
  - exists "0"%char, EmptyString. simpl. auto.
  - destruct (to_uint_head p) as [Hnil _].
    destruct (Pos.to_uint p); try (now destruct Hnil);
      eexists; eexists; (split; [reflexivity|]); simpl; auto 12.
  - eexists; eexists; (split; [reflexivity|]); simpl; auto.
Qed.

Lemma scan_once_int (fuel : nat) (z : Z) (c : ascii) (r : string) :
  closes c ->
  scan_once (S fuel) (encode_int z ++ String c r) = Parsed (JInt z) (String c r).
Proof.
  intros Hc. pose proof (scan_number_int z c r Hc) as Hn.
  destruct (encode_int_head z) as [h [tail [E Hh]]].
  rewrite E in Hn |- *. cbn [append] in Hn |- *.
  cbn [In] in Hh.
  repeat (destruct Hh as [<-|Hh];
          [cbn [scan_once Ascii.eqb Bool.eqb]; unfold scan_atom;
           cbn [strip Ascii.eqb Bool.eqb]; rewrite Hn; reflexivity|]).
  destruct Hh.
Qed.

Lemma scan_once_bool (fuel : nat) (b : bool) (rest : string) :
  scan_once (S fuel) (encode_bool b ++ rest) = Parsed (JBool b) rest.
Proof. destruct b; reflexivity. Qed.

(** *** Blanks *)

Lemma skip_ws_spaces (n : nat) (s : string) :
  skip_ws (spaces n ++ s) = skip_ws s.
Proof. induction n as [|n IH]; [reflexivity | exact IH]. Qed.

Lemma skip_ws_indent (level : nat) (s : string) :
  skip_ws (newline_indent level ++ s) = skip_ws s.
Proof.
  unfold newline_indent. rewrite append_assoc.
  change (skip_ws (spaces (4 * level) ++ s) = skip_ws s).
  apply skip_ws_spaces.
Qed.

Lemma solid_str (k rest : string) : solid (encode_str k ++ rest).
Proof. reflexivity. Qed.

Lemma solid_int (z : Z) (rest : string) : solid (encode_int z ++ rest).
Proof.
  destruct (encode_int_head z) as [h [tail [E Hh]]]. rewrite E.
  cbn [In] in Hh.
  repeat (destruct Hh as [<-|Hh]; [reflexivity|]). destruct Hh.
Qed.

Lemma solid_bool (b : bool) (rest : string) : solid (encode_bool b ++ rest).
Proof. destruct b; reflexivity. Qed.

(** *** Members and books *)

Lemma reads_str (s : string) : reads (encode_str s) (JStr (codes s)).
Proof. split; [apply solid_str | intros; apply scan_once_str]. Qed.

Lemma reads_int (z : Z) : reads (encode_int z) (JInt z).
Proof. split; [apply solid_int | intros; now apply scan_once_int]. Qed.

Lemma reads_bool (b : bool) : reads (encode_bool b) (JBool b).
Proof. split; [apply solid_bool | intros; apply scan_once_bool]. Qed.

(** A member that another member follows. *)
Lemma scan_members_step (fuel level : nat) (d : list (list N * json))
  (key text : string) (v : json) (next : string) :
  0 < fuel -> reads text v -> solid next ->
  scan_members (S fuel) d
    (encode_str key ++ ": " ++ text ++ "," ++ newline_indent level ++ next)
  = scan_members fuel (dict_set (codes key) v d) next.
Proof.
  intros Hfuel [Hs Hv] Hnext.
  unfold encode_str at 1. rewrite !append_assoc.
  change (quote ++ escape key ++ quote ++ ": " ++ text ++ "," ++ newline_indent level ++ next)
    with (String "034" (escape key ++ quote ++
            String ":" (String " " (text ++ String "," (newline_indent level ++ next))))).
  cbn [scan_members Ascii.eqb Bool.eqb]. rewrite scanstring_escape.
  cbn [skip_ws is_ws Ascii.eqb Bool.eqb orb].
  rewrite (Hs (String "," (newline_indent level ++ next))).
  destruct fuel as [|fuel]; [lia|].
  rewrite Hv by now left.
  cbn [skip_ws is_ws Ascii.eqb Bool.eqb orb].
  rewrite skip_ws_indent, Hnext. reflexivity.
Qed.

(** The last member of a dict. *)
Lemma scan_members_last (fuel level : nat) (d : list (list N * json))
  (key text : string) (v : json) (rest : string) :
  0 < fuel -> reads text v ->
  scan_members (S fuel) d
    (encode_str key ++ ": " ++ text ++ newline_indent level ++ "}" ++ rest)
  = Parsed (dict_set (codes key) v d) rest.
Proof.
  intros Hfuel [Hs Hv].
  unfold encode_str at 1. rewrite !append_assoc.
  change (quote ++ escape key ++ quote ++ ": " ++ text ++ newline_indent level ++ "}" ++ rest)
    with (String "034" (escape key ++ quote ++
            String ":" (String " " (text ++
              String "010" (spaces (4 * level) ++ String "}" rest))))).
  cbn [scan_members Ascii.eqb Bool.eqb]. rewrite scanstring_escape.
  cbn [skip_ws is_ws Ascii.eqb Bool.eqb orb].
  rewrite (Hs (String "010" (spaces (4 * level) ++ String "}" rest))).
  destruct fuel as [|fuel]; [lia|].
  rewrite Hv by now right.
  cbn [skip_ws is_ws Ascii.eqb Bool.eqb orb].
  rewrite skip_ws_spaces. reflexivity.
Qed.

Lemma scan_once_book (fuel level : nat) (b : book) (rest : string) :
  6 < fuel ->
  scan_once fuel (encode_book level b ++ rest) = Parsed (of_book b) rest.
Proof.
  intros Hfuel.
  do 7 (destruct fuel as [|fuel]; [lia|]).
  unfold encode_book, encode_dict. cbn [map join fst snd].
  rewrite !append_assoc.
  change ("{" ++ newline_indent (S level) ++ ?x)
    with (String "{" (newline_indent (S level) ++ x)).
  cbn [scan_once Ascii.eqb Bool.eqb].
  rewrite skip_ws_indent, solid_str.
  change (encode_str "title" ++ ?x)
    with (String "034" (escape "title" ++ quote ++ x)) at 1.
  cbn [Ascii.eqb Bool.eqb].
  change (String "034" (escape "title" ++ quote ++ ?x))
    with (encode_str "title" ++ x).
  rewrite (scan_members_step _ _ _ _ _ (JStr (codes (title b))))
    by (try lia; auto using reads_str, solid_str).
  rewrite (scan_members_step _ _ _ _ _ (JStr (codes (author b))))
    by (try lia; auto using reads_str, solid_str).
  rewrite (scan_members_step _ _ _ _ _ (JInt (year b)))
    by (try lia; auto using reads_int, solid_str).
  rewrite (scan_members_step _ _ _ _ _ (JStr (codes (genre b))))
    by (try lia; auto using reads_str, solid_str).
  rewrite (scan_members_last _ _ _ _ _ (JBool (read b)))
    by (try lia; auto using reads_bool).
  reflexivity.
Qed.

(** *** Libraries *)

Lemma solid_book (level : nat) (b : book) (rest : string) :
  solid (encode_book level b ++ rest).
Proof. reflexivity. Qed.

Lemma solid_join (b : book) (l : list book) (rest : string) :
  solid (join separator (map (encode_book 1) (b :: l)) ++ rest).
Proof.
  destruct l as [|b' l]; cbn [map join].
  - apply solid_book.
  - rewrite append_assoc. apply solid_book.
Qed.

Lemma scan_elements_books (l : list book) (b : book) (fuel : nat) (rest : string) :
  List.length l + 7 < fuel ->
  scan_elements fuel
    (join separator (map (encode_book 1) (b :: l))
     ++ newline_indent 0 ++ "]" ++ rest)
  = Parsed (map of_book (b :: l)) rest.
Proof.
  revert b fuel. induction l as [|b' l IH]; intros b fuel Hfuel;
    (destruct fuel as [|fuel]; [simpl in Hfuel; lia|]).
  - cbn [map join scan_elements].
    rewrite scan_once_book by (simpl in Hfuel; lia).
    reflexivity.
  - change (join separator (map (encode_book 1) (b :: b' :: l)))
      with (encode_book 1 b ++ separator
            ++ join separator (map (encode_book 1) (b' :: l))).
    unfold separator at 1. rewrite !append_assoc.
    cbn [scan_elements].
    rewrite scan_once_book by (simpl in Hfuel; lia).
    change ("," ++ ?x) with (String "," x).
    cbn [skip_ws is_ws Ascii.eqb Bool.eqb orb].
    rewrite skip_ws_indent, solid_join.
    rewrite IH by (simpl in Hfuel; lia).
    reflexivity.
Qed.

Lemma length_encode_book (level : nat) (b : book) :
  4 <= String.length (encode_book level b).
Proof.
  unfold encode_book, encode_dict. cbn [map join fst snd].
  rewrite !length_append. unfold newline_indent.
  rewrite !length_append. simpl String.length. lia.
Qed.

Lemma length_join (l : list book) :
  4 * List.length l
  <= String.length (join separator (map (encode_book 1) l)).
Proof.
  induction l as [|b l IH]; [simpl; lia|].
  pose proof (length_encode_book 1 b) as Hb.
  destruct l as [|b' l].
  - cbn [map join List.length]. lia.
  - change (join separator (map (encode_book 1) (b :: b' :: l)))
      with (encode_book 1 b ++ separator
            ++ join separator (map (encode_book 1) (b' :: l))).
    rewrite !length_append. cbn [List.length] in IH |- *. lia.
Qed.

(** The scan of a dump is the value of the library that was dumped. *)
Lemma loads_dumps (library : list book) :
  loads (dumps library) = Some (of_library library).
Proof.
  destruct library as [|b l]; [reflexivity|].
  unfold loads, dumps, encode_list, of_library.
  cbn [map]. fold separator.
  set (lines := join separator (encode_book 1 b :: map (encode_book 1) l)).
  assert (4 * S (List.length l) <= String.length lines) as Hlen
    by apply (length_join (b :: l)).
  set (whole := "[" ++ newline_indent 1 ++ lines ++ newline_indent 0 ++ "]").
  assert (String.length lines <= String.length whole) as Hwhole.
  { unfold whole. rewrite !length_append. lia. }
  pose proof (scan_elements_books l b (2 * String.length whole) EmptyString)
    as Hscan.
  cbn [map] in Hscan. fold lines in Hscan.
  specialize (Hscan ltac:(lia)).
  pose proof (solid_join b l (newline_indent 0 ++ "]" ++ EmptyString)) as Hsolid.
  cbn [map] in Hsolid. fold lines in Hsolid.
  unfold whole at 2.
  change (skip_ws ("[" ++ ?x)) with (String "[" x).
  cbn [scan_once Ascii.eqb Bool.eqb].
  rewrite skip_ws_indent.
  replace (lines ++ newline_indent 0 ++ "]")
    with (lines ++ newline_indent 0 ++ "]" ++ EmptyString) by reflexivity.
  rewrite Hsolid, Hscan.
  destruct (lines ++ newline_indent 0 ++ "]" ++ "") as [|c r] eqn:E.
  - exfalso. destruct l; discriminate E.
  - assert (c = "{"%char) as -> by (destruct l; now injection E).
    reflexivity.
Qed.

Lemma uncodes_codes (s : string) : uncodes (codes s) = Some s.
Proof.
  induction s as [|c s IH]; [reflexivity|].
  cbn [codes uncodes]. rewrite IH.
  pose proof (N_ascii_bounded c) as Hc. apply N.ltb_lt in Hc. rewrite Hc.
  cbn [option_map]. now rewrite ascii_N_embedding.
Qed.

Lemma as_book_of_book (b : book) : as_book (of_book b) = Some b.
Proof.
  destruct b as [t a y g r]. unfold as_book, of_book.
  cbn [dict_get codes title author year genre read str_eqb
       N_of_ascii N.eqb Pos.eqb andb].
  cbn. rewrite !uncodes_codes. reflexivity.
Qed.

Lemma as_library_of_library (l : list book) :
  as_library (of_library l) = Some l.
Proof.
  unfold as_library, of_library.
  induction l as [|b l IH]; [reflexivity|].
  cbn [map as_books]. now rewrite as_book_of_book, IH.
Qed.

End Codec.

(** ** The store and its file *)

Lemma load_text (l : list book) (t : string) (n : nat) :
  load_library (World l (Text t) n)
  = (Returns match Json.loads t with Some v => v | None => JList [] end,
     World l (Text t) n).
Proof.
  unfold load_library, try_except, json_load, bind, read_file. cbn [disk].
  destruct (Json.loads t); reflexivity.
Qed.

Lemma load_dump (l library : list book) (n : nat) :
  load_library (World l (Text (Json.dumps library)) n)
  = (Returns (Json.of_library library), World l (Text (Json.dumps library)) n).
Proof. rewrite load_text, Codec.loads_dumps. reflexivity. Qed.

(** C6. Saving a library and loading the file again returns the value of
    that library: a list of the same books, equal to the saved ones in
    title, author, year, genre and read. *)
Theorem save_then_load (library : list book) (w : world) :
  (save_library library ;; load_library) w
  = (Returns (Json.of_library library),
     World (mem w) (Text (Json.dumps library)) (S (writes w)))
  /\ as_library (Json.of_library library) = Some library.
Proof.
  split; [|apply Codec.as_library_of_library].
  unfold bind, save_library, json_dump, write_file.
  apply load_dump.
Qed.

(** C8. After [add_book], and after a [remove_book] that found the title,
    the storage file holds the library in memory: the call rewrote the
    file once, with the dump of the whole list, whatever the file held
    before, and loading the file returns the value of the list. *)
Theorem mutation_synchronizes (w : world) :
  (forall t a y g r,
      synchronized (after (add_book t a y g r) w)
      /\ writes (after (add_book t a y g r) w) = S (writes w))
  /\ (forall title_,
        outcome (remove_book title_) w = Returns true ->
        synchronized (after (remove_book title_) w)
        /\ writes (after (remove_book title_) w) = S (writes w)).
Proof.
  split.
  - intros t a y g r. unfold synchronized, after, outcome. cbn.
    split; [|reflexivity]. split; [reflexivity|].
    rewrite load_dump. reflexivity.
  - intros title_ Hout.
    destruct (named_or_not title_ (mem w)) as [Hsome|Hno].
    + destruct (first_named title_ (mem w) Hsome)
        as [before [b [behind [Hl [Hb Hnone]]]]].
      unfold synchronized, after, outcome.
      rewrite (remove_book_hit w title_ before behind b Hl Hb Hnone).
      cbn [snd mem disk writes].
      split; [|reflexivity]. split; [reflexivity|].
      rewrite load_dump. reflexivity.
    + unfold outcome in Hout. rewrite (remove_book_miss w title_ Hno) in Hout.
      discriminate.
Qed.

Lemma mutation_synchronizes_witness :
  synchronized (after (remove_book "dune") Shelf.home)
  /\ writes (after (remove_book "dune") Shelf.home) = S (writes Shelf.home).
Proof.
  apply (proj2 (mutation_synchronizes Shelf.home) "dune").
  reflexivity.
Defined.

(** What [load_library] does on a file that is no text. *)
Remark load_library_undecodable (l : list book) (n : nat) :
  load_library (World l Undecodable n)
  = (Raises UnicodeDecodeError, World l Undecodable n).
Proof. reflexivity. Qed.




(** ** More on the store in memory *)

Lemma bears_names (title_ : string) (b : book) :
  bears title_ b = true <-> names title_ b.
Proof. apply String.eqb_eq. Qed.

Lemma remove_book_run (w : world) (title_ : string) :
  (exists before b behind,
      mem w = (before ++ b :: behind)%list
      /\ bears title_ b = true
      /\ forallb (fun x => negb (bears title_ x)) before = true
      /\ remove_book title_ w
         = (Returns true,
            World (before ++ behind) (Text (Json.dumps (before ++ behind)%list))
                  (S (writes w))))
  \/ (forallb (fun x => negb (bears title_ x)) (mem w) = true
      /\ remove_book title_ w = (Returns false, w)).
Proof.
  destruct (named_or_not title_ (mem w)) as [Hsome|Hno].
  - left. destruct (first_named title_ (mem w) Hsome)
      as [before [b [behind [Hl [Hb Hnone]]]]].
    exists before, b, behind. split; [exact Hl|].
    split; [now apply bears_names|]. split.
    + apply forallb_forall. intros x Hx. apply negb_true_iff.
      destruct (bears title_ x) eqn:E; [|reflexivity].
      apply bears_names in E. now destruct (Hnone x Hx).
    + now apply (remove_book_hit w title_ before behind b).
  - right. split; [|now apply remove_book_miss].
    apply forallb_forall. intros x Hx. apply negb_true_iff.
    destruct (bears title_ x) eqn:E; [|reflexivity].
    apply bears_names in E. now destruct (Hno x Hx).
Qed.


Lemma filter_none (f : book -> bool) (l : list book) :
  forallb (fun x => negb (f x)) l = true ->
  filter f l = [] /\ filter (fun x => negb (f x)) l = l.
Proof.
  induction l as [|x l IH]; [now split|]. simpl.
  rewrite andb_true_iff. intros [Hx H]. rewrite Hx.
  apply negb_true_iff in Hx. rewrite Hx.
  destruct (IH H) as [-> ->]. now split.
Qed.


(** X2. [remove_book] touches one book at most: the books that do not bear
    the title stay, in their order, and the number of the books that bear
    it goes down by one (and stays 0 when it is 0). *)
Theorem remove_book_keeps_others (w : world) (title_ : string) :
  let w' := after (remove_book title_) w in
  filter (fun x => negb (bears title_ x)) (mem w')
  = filter (fun x => negb (bears title_ x)) (mem w)
  /\ List.length (filter (bears title_) (mem w'))
     = Nat.pred (List.length (filter (bears title_) (mem w))).
Proof.
  unfold after.
  destruct (remove_book_run w title_)
    as [(before & b & behind & Hl & Hb & Hno & ->)|[Hno ->]]; cbn [snd mem].
  - rewrite Hl, !filter_app. cbn [filter]. rewrite Hb. cbn [negb].
    split; [reflexivity|].
    rewrite !length_app. cbn [List.length]. lia.
  - split; [reflexivity|].
    destruct (filter_none _ _ Hno) as [-> _]. reflexivity.
Qed.



(** X4. Removing a title after adding a book under it takes out the oldest
    book that bears the title: when the library held one already, that
    one goes and the new book stays, at the end. *)
Theorem add_then_remove_oldest (w : world) (t a : string) (y : Z) (g : string)
  (r : bool) (title_ : string) (before behind : list book) (b : book) :
  mem w = (before ++ b :: behind)%list ->
  bears title_ b = true ->
  existsb (bears title_) before = false ->
  (add_book t a y g r ;; remove_book title_) w
  = (Returns true,
     World (before ++ behind ++ [Book t a y g r])
           (Text (Json.dumps (before ++ behind ++ [Book t a y g r])%list))
           (S (S (writes w)))).
Proof.
  intros Hl Hb Hnone.
  assert (forall x, In x before -> ~ names title_ x) as Hno.
  { intros x Hx Hn. apply bears_names in Hn.
    assert (existsb (bears title_) before = true) as E
      by (apply existsb_exists; now exists x).
    congruence. }
  unfold bind at 1.
  change (add_book t a y g r w)
    with (Returns tt,
          World (mem w ++ [Book t a y g r])
                (Text (Json.dumps (mem w ++ [Book t a y g r])%list))
                (S (writes w))).
  cbn beta iota.
  rewrite (remove_book_hit _ title_ before (behind ++ [Book t a y g r]) b);
    [reflexivity| |now apply bears_names|exact Hno].
  cbn [mem]. rewrite Hl, <- List.app_assoc. reflexivity.
Qed.

Lemma add_then_remove_oldest_witness :
  (add_book "dune" "F. Herbert" 2021 "SF" false ;; remove_book "Dune")
    Shelf.home
  = (Returns true,
     World ([Shelf.hobbit] ++ [Shelf.dune_film; Shelf.dune]
            ++ [Book "dune" "F. Herbert" 2021 "SF" false])
           (Text (Json.dumps ([Shelf.hobbit] ++ [Shelf.dune_film; Shelf.dune]
                    ++ [Book "dune" "F. Herbert" 2021 "SF" false])%list))
           (S (S (writes Shelf.home)))).
Proof.
  apply (add_then_remove_oldest Shelf.home "dune" "F. Herbert" 2021 "SF" false
           "Dune" [Shelf.hobbit] [Shelf.dune_film; Shelf.dune] Shelf.dune);
    reflexivity.
Defined.

(** *** Searching *)

Lemma lower_char_twice (c : ascii) : lower_char (lower_char c) = lower_char c.
Proof. destruct c as [[] [] [] [] [] [] [] []]; reflexivity. Qed.

Lemma lower_twice (s : string) : lower (lower s) = lower s.
Proof.
  induction s as [|c s IH]; [reflexivity|].
  cbn [lower]. now rewrite lower_char_twice, IH.
Qed.









Lemma remove_loop_lowered (items : list book) (title_ : string) :
  remove_loop items (lower title_) = remove_loop items title_.
Proof.
  induction items as [|b items IH]; [reflexivity|].
  cbn [remove_loop]. now rewrite lower_twice, IH.
Qed.

(** X7. The case of what the user types does not count: the lowered query
    finds what the query finds, and the lowered title removes what the
    title removes. *)
Theorem lowered_input (w : world) (typed : string) :
  search_books (lower typed) w = search_books typed w
  /\ remove_book (lower typed) w = remove_book typed w.
Proof.
  split.
  - unfold search_books. now rewrite lower_twice.
  - unfold remove_book, bind, get_library. now rewrite remove_loop_lowered.
Qed.

(** *** Statistics *)

Lemma statistics_run (w : world) :
  mem w <> [] ->
  calculate_statistics w
  = (Returns (Z.of_nat (List.length (mem w)),
              Qmult (Qdiv (inject_Z (Z.of_nat (read_count (mem w))))
                          (inject_Z (Z.of_nat (List.length (mem w)))))
                    (inject_Z 100)),
     w).
Proof.
  intros Hl. unfold calculate_statistics, bind at 1, get_library.
  rewrite sum_ones_read.
  destruct (mem w) as [|b l] eqn:E; [now destruct Hl|].
  assert ((Z.of_nat (List.length (b :: l)) >? 0)%Z = true) as ->
    by (apply Z.gtb_lt; simpl List.length; lia).
  unfold bind at 1, bind at 1, true_div.
  assert ((Z.of_nat (List.length (b :: l)) =? 0)%Z = false) as ->
    by (apply Z.eqb_neq; simpl List.length; lia).
  reflexivity.
Qed.

Lemma read_count_le (l : list book) : read_count l <= List.length l.
Proof.
  unfold read_count. rewrite <- (length_map read l). apply count_occ_bound.
Qed.

Lemma read_count_all (l : list book) :
  read_count l = List.length l <-> forallb read l = true.
Proof.
  unfold read_count. induction l as [|b l IH]; [simpl; tauto|].
  cbn [map count_occ forallb List.length].
  pose proof (read_count_le l) as Hle. unfold read_count in Hle.
  destruct (read b); cbn [andb].
  - destruct (bool_dec true true) as [_|N]; [|now destruct N].
    rewrite <- IH. lia.
  - destruct (bool_dec false true) as [N|_]; [discriminate|].
    split; [lia | discriminate].
Qed.

Lemma read_count_none (l : list book) :
  read_count l = 0 <-> existsb read l = false.
Proof.
  unfold read_count. induction l as [|b l IH]; [simpl; tauto|].
  cbn [map count_occ existsb].
  destruct (read b); cbn [orb].
  - destruct (bool_dec true true) as [_|N]; [|now destruct N].
    split; [lia | discriminate].
  - destruct (bool_dec false true) as [N|_]; [discriminate | exact IH].
Qed.

(** The share computed on [r] books read out of [S k]. *)
Lemma share_value (r k : nat) :
  Qeq (Qmult (Qdiv (inject_Z (Z.of_nat r)) (inject_Z (Z.of_nat (S k))))
             (inject_Z 100))
      (Qmake (Z.of_nat r * 100) (Pos.of_succ_nat k)).
Proof.
  unfold Qeq, Qdiv, Qinv, inject_Z. cbn [Z.of_nat Qnum Qden].
  unfold Qmult. cbn [Qnum Qden]. lia.
Qed.

(** X8. The share of books read that [calculate_statistics] returns lies
    between 0 and 100, whatever the library: a hundredth of it is a value
    that a progress bar takes. *)
Theorem percentage_in_range (w : world) :
  exists total pct,
    calculate_statistics w = (Returns (total, pct), w)
    /\ Qle 0 pct /\ Qle pct 100.
Proof.
  destruct (mem w) as [|b l] eqn:E.
  - exists 0%Z, 0%Q. split; [|split; discriminate].
    unfold calculate_statistics, bind, get_library. rewrite E. reflexivity.
  - eexists. eexists. split.
    + apply statistics_run. rewrite E. discriminate.
    + rewrite E. pose proof (read_count_le (b :: l)) as Hle.
      cbn [List.length] in *. rewrite share_value.
      unfold Qle. cbn [Qnum Qden]. split; lia.
Qed.

(** X9. On a library with books the share is 100 exactly when every book is
    marked read, and 0 exactly when none is. *)
Theorem percentage_extremes (w : world) :
  mem w <> [] ->
  exists total pct,
    calculate_statistics w = (Returns (total, pct), w)
    /\ (Qeq pct 100 <-> forallb read (mem w) = true)
    /\ (Qeq pct 0 <-> existsb read (mem w) = false).
Proof.
  intros Hl. eexists. eexists. split; [now apply statistics_run|].
  rewrite <- read_count_all, <- read_count_none.
  destruct (mem w) as [|b l]; [now destruct Hl|].
  cbn [List.length]. rewrite share_value.
  pose proof (read_count_le (b :: l)) as Hle. cbn [List.length] in Hle.
  unfold Qeq. cbn [Qnum Qden]. split; split; lia.
Qed.

Lemma percentage_extremes_witness :
  exists total pct,
    calculate_statistics Shelf.home = (Returns (total, pct), Shelf.home)
    /\ (Qeq pct 100 <-> forallb read (mem Shelf.home) = true)
    /\ (Qeq pct 0 <-> existsb read (mem Shelf.home) = false).
Proof.
  apply (percentage_extremes Shelf.home). discriminate.
Defined.


(** *** The storage file *)



(** X12. Two libraries that differ are saved as files that differ. *)
Theorem dumps_injective (l1 l2 : list book) :
  Json.dumps l1 = Json.dumps l2 -> l1 = l2.
Proof.
  intros H.
  assert (Some (Json.of_library l1) = Some (Json.of_library l2)) as Hv
    by (rewrite <- !Codec.loads_dumps; now rewrite H).
  apply (f_equal (fun o => match o with
                           | Some v => as_library v
                           | None => None
                           end)) in Hv.
  rewrite !Codec.as_library_of_library in Hv. now injection Hv.
Qed.

Lemma dumps_injective_witness :
  Shelf.shelf = [Shelf.hobbit; Shelf.dune; Shelf.dune_film; Shelf.dune].
Proof.
  apply (dumps_injective Shelf.shelf
           [Shelf.hobbit; Shelf.dune; Shelf.dune_film; Shelf.dune]).
  reflexivity.
Defined.

Lemma plain_append (a b : string) :
  plain (a ++ b) = plain a && plain b.
Proof.
  induction a as [|c a IH]; [reflexivity|].
  cbn [append plain]. now rewrite IH, andb_assoc.
Qed.

Lemma plain_escape (s : string) : plain (Json.escape s) = true.
Proof.
  induction s as [|c s IH]; [reflexivity|].
  cbn [Json.escape]. rewrite plain_append, IH, andb_true_r.
  destruct c as [[] [] [] [] [] [] [] []]; reflexivity.
Qed.

Lemma plain_uint (d : Decimal.uint) : plain (NilEmpty.string_of_uint d) = true.
Proof. induction d; cbn [NilEmpty.string_of_uint plain]; auto. Qed.

Lemma plain_int (z : Z) : plain (Json.encode_int z) = true.
Proof.
  unfold Json.encode_int.
  destruct (Z.to_int z) as [d|d]; cbn [NilZero.string_of_int];
    unfold NilZero.string_of_uint; destruct d;
    try reflexivity; cbn [plain]; rewrite ?plain_uint; reflexivity.
Qed.

Lemma plain_spaces (n : nat) : plain (Json.spaces n) = true.
Proof. induction n as [|n IH]; [reflexivity | exact IH]. Qed.

Lemma plain_book (level : nat) (b : book) :
  plain (Json.encode_book level b) = true.
Proof.
  unfold Json.encode_book, Json.encode_dict, Json.encode_str,
    Json.newline_indent.
  cbn [map Json.join fst snd].
  rewrite !plain_append, !plain_escape, !plain_spaces, plain_int.
  destruct (read b); reflexivity.
Qed.

Lemma plain_join (l : list book) :
  plain (Json.join Json.separator (map (Json.encode_book 1) l)) = true.
Proof.
  induction l as [|b l IH]; [reflexivity|].
  destruct l as [|b' l]; [apply plain_book|].
  change (Json.join Json.separator (map (Json.encode_book 1) (b :: b' :: l)))
    with (Json.encode_book 1 b ++ Json.separator
          ++ Json.join Json.separator (map (Json.encode_book 1) (b' :: l))).
  now rewrite !plain_append, plain_book, IH.
Qed.

(** X13. The file that [save_library] writes is plain ASCII, whatever the
    characters of the titles, authors and genres: line breaks and
    characters from blank to tilde only. *)
Theorem dumps_plain (library : list book) : plain (Json.dumps library) = true.
Proof.
  unfold Json.dumps, Json.encode_list.
  destruct library as [|b l]; [reflexivity|].
  change (match map (Json.encode_book 1) (b :: l) with
          | [] => "[]"
          | _ :: _ =>
              "[" ++ Json.newline_indent 1
              ++ Json.join ("," ++ Json.newline_indent 1)
                   (map (Json.encode_book 1) (b :: l))
              ++ Json.newline_indent 0 ++ "]"
          end)
    with ("[" ++ Json.newline_indent 1
          ++ Json.join Json.separator (map (Json.encode_book 1) (b :: l))
          ++ Json.newline_indent 0 ++ "]").
  now rewrite !plain_append, plain_join.
Qed.

(** ** The script *)

Lemma str_eqb_eq (a b : list N) : Json.str_eqb a b = true <-> a = b.
Proof.
  revert b; induction a as [|x a IH]; intros [|y b]; cbn [Json.str_eqb];
    try (split; [discriminate | discriminate]); [tauto|].
  rewrite andb_true_iff, N.eqb_eq, IH.
  split; [intros [-> ->]; reflexivity | intros [= -> ->]; now split].
Qed.

Lemma uncodes_inv (l : list N) (s : string) :
  uncodes l = Some s -> codes s = l.
Proof.
  revert s; induction l as [|n l IH]; intros s; cbn [uncodes].
  - now intros [= <-].
  - destruct (n <? 256)%N eqn:E; [|discriminate].
    destruct (uncodes l) as [s'|]; [|discriminate].
    intros [= <-]. cbn [codes]. rewrite (IH s' eq_refl).
    rewrite N_ascii_embedding by now apply N.ltb_lt. reflexivity.
Qed.



(** The runs that the model covers are the runs on the value of a
    library, and on no other value. *)
Remark own_library_inv (v : json) (l : list book) :
  own_library v = Some l -> v = Json.of_library l.
Proof.
  destruct v as [| | | | |items|]; try discriminate.
  unfold own_library, Json.of_library. revert l.
  induction items as [|v items IH]; intros l; cbn [own_books].
  - now intros [= <-].
  - destruct (own_book v) as [b|] eqn:Eb; [|discriminate].
    destruct (own_books items) as [bs|]; [|discriminate].
    intros [= <-]. cbn [map]. specialize (IH bs eq_refl).
    injection IH as ->. do 2 f_equal.
    unfold own_book in Eb.
    destruct v as [| | | | | |d]; try discriminate.
    destruct d as [|[k1 [| | | |t| |]] d]; try discriminate.
    destruct d as [|[k2 [| | | |a| |]] d]; try discriminate.
    destruct d as [|[k3 [| |y| | | |]] d]; try discriminate.
    destruct d as [|[k4 [| | | |g| |]] d]; try discriminate.
    destruct d as [|[k5 [|r| | | | |]] d]; try discriminate.
    destruct d; try discriminate.
    destruct (Json.str_eqb k1 _ && _ && _ && _ && _) eqn:Ek; [|discriminate].
    rewrite !andb_true_iff, !str_eqb_eq in Ek.
    destruct Ek as [[[[-> ->] ->] ->] ->].
    destruct (uncodes t) as [t'|] eqn:Et; [|discriminate].
    destruct (uncodes a) as [a'|] eqn:Ea; [|discriminate].
    destruct (uncodes g) as [g'|] eqn:Eg; [|discriminate].
    injection Eb as <-. unfold Json.of_book. cbn [title author year genre read].
    now rewrite (uncodes_inv _ _ Et), (uncodes_inv _ _ Ea), (uncodes_inv _ _ Eg).
Qed.

Lemma load_frame (w : world) : snd (load_library w) = w.
Proof.
  destruct w as [l [| |t] n]; try reflexivity.
  now rewrite load_text.
Qed.






Lemma read_only_frame_stats (w : world) :
  exists x, (stats <- calculate_statistics ;;
             ret [Metrics (fst stats) (snd stats);
                  Progress (Qdiv (snd stats) (inject_Z 100))]) w = (x, w).
Proof.
  unfold bind at 1.
  destruct (mem w) as [|b l] eqn:E.
  - unfold calculate_statistics, bind, get_library. rewrite E.
    now eexists.
  - rewrite statistics_run by (rewrite E; discriminate). now eexists.
Qed.

Lemma read_only_frame_random (draw : nat) (w : world) :
  exists x, get_random_book draw w = (x, w).
Proof.
  unfold get_random_book, bind at 1, get_library.
  destruct (mem w) as [|b l]; [now eexists|].
  unfold bind, random_choice.
  destruct (nth_error (b :: l) draw); now eexists.
Qed.




(** X15. A run that calls neither [add_book] nor [remove_book] leaves the
    storage file alone, in every state of the file, also when the run
    raises. *)
Theorem page_read_only (r : request) (w : world) :
  submits r = false ->
  disk (after (page r) w) = disk w
  /\ writes (after (page r) w) = writes w.
Proof.
  intros Hr. unfold after.
  assert (forall w1, disk (snd (branch r w1)) = disk w1
                     /\ writes (snd (branch r w1)) = writes w1) as Hb.
  { intros w1.
    destruct r as [cover|t a y g rs [|]|t [|]|q [|]| | |draw];
      try discriminate; cbn [branch]; try (split; reflexivity).
    - unfold bind, search_books, bind, get_library, ret.
      destruct (filter _ (mem w1)); split; reflexivity.
    - unfold bind, get_library, ret. destruct (mem w1); split; reflexivity.
    - destruct (read_only_frame_stats w1) as [x Hx]. rewrite Hx. split; reflexivity.
    - destruct (read_only_frame_random draw w1) as [x Hx].
      unfold bind. rewrite Hx.
      destruct x as [[b|]|e]; split; reflexivity. }
  remember (page r w) as res eqn:E.
  unfold page, bind at 1 in E.
  pose proof (load_frame w) as Hw.
  destruct (load_library w) as [[v|e] w0]; cbn [snd] in Hw; subst w0;
    [|subst res; split; reflexivity].
  destruct (own_library v) as [l|]; [|subst res; split; reflexivity].
  unfold bind at 1, set_library in E. unfold bind at 1 in E.
  specialize (Hb (World l (disk w) (writes w))).
  destruct (branch r (World l (disk w) (writes w))) as [[out|e] w1];
    subst res; unfold ret; cbn [snd disk writes] in *; exact Hb.
Qed.

Lemma page_read_only_witness :
  disk (after (page (SearchBooks "dune" true)) Shelf.home) = disk Shelf.home
  /\ writes (after (page (SearchBooks "dune" true)) Shelf.home)
     = writes Shelf.home.
Proof.
  apply (page_read_only (SearchBooks "dune" true) Shelf.home). reflexivity.
Defined.












